(** * monk-api-fuse: the filesystem-to-File-API adaptation layer

    A shallow embedding of the Go packages [monkapi] (client types),
    [cache] (TTL metadata cache) and [monkfs] (FUSE node callbacks, errno
    translation), with the properties of the design document proved or
    refuted against it.

    Conventions.
    - A Go [string] is a byte sequence: Rocq [string] (8-bit [ascii]).
    - A Go [[]byte] is [list byte].
    - Go [int], [int64] are [Z] (the values that occur stay in range; the
      one narrowing conversion, [uint64(..)], is written out).
    - A nil-able pointer [*T] is [option T]; the [error] interface is
      [option error] with [None] for [nil].
    - A run-time panic is an explicit outcome, never a stuck term. *)

From Stdlib Require Import ZArith Ascii String List Lia Bool.
From stdpp Require Import gmap strings list fin_maps.

Local Open Scope Z_scope.

Abbreviation byte := Init.Byte.byte.

(* ===================================================================== *)
(** ** Go run-time primitives used by the packages *)
(* ===================================================================== *)

Module Go.

(** The result of running Go code that may panic. *)
Inductive exec (A : Type) : Type :=
| Ret (a : A)
| Panic (msg : string).
Arguments Ret {A} a.
Arguments Panic {A} msg.

Definition bind {A B} (m : exec A) (k : A → exec B) : exec B :=
  match m with
  | Ret a => k a
  | Panic msg => Panic msg
  end.

(** [len(s)] for a string and for a byte slice. *)
Definition len (s : string) : Z := Z.of_nat (String.length s).
Definition blen (b : list byte) : Z := Z.of_nat (List.length b).

(** [s[lo:hi]] on a string: panics unless [0 <= lo <= hi <= len(s)]. *)
Definition slice (s : string) (lo hi : Z) : exec string :=
  if (0 <=? lo) && (lo <=? hi) && (hi <=? len s)
  then Ret (String.substring (Z.to_nat lo) (Z.to_nat (hi - lo)) s)
  else Panic "slice bounds out of range".

(** [b[lo:]] on a byte slice: panics unless [0 <= lo <= len(b)]. *)
Definition bslice_from (b : list byte) (lo : Z) : exec (list byte) :=
  if (0 <=? lo) && (lo <=? blen b)
  then Ret (drop (Z.to_nat lo) b)
  else Panic "slice bounds out of range".

(** [[]byte(s)]. *)
Definition bytes_of_string (s : string) : list byte :=
  String.list_byte_of_string s.

(** [strings.HasPrefix] and [strings.HasSuffix], as the library has them:
    a length test and a comparison of the corresponding slice. *)
Definition HasPrefix (s prefix : string) : bool :=
  (len prefix <=? len s)
  && String.eqb (String.substring 0 (String.length prefix) s) prefix.

Definition HasSuffix (s suffix : string) : bool :=
  (len suffix <=? len s)
  && String.eqb
       (String.substring (String.length s - String.length suffix)
                         (String.length suffix) s)
       suffix.

(** [uint64(x)] of an [int64]: two's-complement reinterpretation. *)
Definition uint64 (x : Z) : Z := x mod 2 ^ 64.

(** [time.Duration] is an [int64] of nanoseconds; [Time.Sub] saturates. *)
Definition maxDuration : Z := 2 ^ 63 - 1.
Definition minDuration : Z := - 2 ^ 63.

Definition time_Sub (t u : Z) : Z :=
  let d := t - u in
  if d <? minDuration then minDuration
  else if maxDuration <? d then maxDuration
  else d.

(** [time.Since(t)] when the clock reads [now]. *)
Definition time_Since (now t : Z) : Z := time_Sub now t.

(** The one-character string holding a double quote. *)
Definition quote : string := String (ascii_of_nat 34) EmptyString.

End Go.

(* ===================================================================== *)
(** ** Package monkapi: response types, errors *)
(* ===================================================================== *)

Module monkapi.

Record FileMetadata := {
  Size : Z;                 (* int64 *)
  ModifiedTime : string;
  CreatedTime : string;
  AccessTime : string;
  FileMetadata_Type : string;
  Permissions : string;
}.

Record StatResponse := {
  StatResponse_Success : bool;
  StatResponse_FileMetadata : FileMetadata;
  StatResponse_Type : string;
}.

Record FileEntry := {
  Name : string;
  FileType : string;
  FileSize : Z;
  FilePermissions : string;
  FileModified : string;
  Path : string;
}.

Record ListOptions := {
  ShowHidden : bool;
  LongFormat : bool;
  Recursive_ : bool;
  MaxDepth : Z;
  SortBy : string;
  SortOrder : string;
  PatternOptimization : bool;
}.

Record ListResponse := {
  ListResponse_Success : bool;
  Entries : list FileEntry;
  Total : Z;
  HasMore : bool;
  ListResponse_FileMetadata : FileMetadata;
}.

Record RetrieveOptions := {
  StartOffset : Z;
  MaxBytes : Z;
}.

(** The dynamic type of [RetrieveResponse.Content], an [interface{}]:
    the cases [contentToBytes] tells apart, with every other dynamic
    type (bool, float64, slices and maps of decoded JSON) under
    [AnyOther]. *)
Inductive any (Other : Type) : Type :=
| AnyNil
| AnyString (s : string)
| AnyBytes (b : list byte)
| AnyOther (v : Other).
Arguments AnyNil {Other}.
Arguments AnyString {Other} s.
Arguments AnyBytes {Other} b.
Arguments AnyOther {Other} v.

Record RetrieveResponse (Other : Type) := {
  RetrieveResponse_Success : bool;
  Content : any Other;
}.
Arguments RetrieveResponse_Success {Other} r.
Arguments Content {Other} r.

Record APIError := {
  StatusCode : Z;           (* int *)
  ErrorCode : string;
  Message : string;
}.

(** A non-nil [error] value: either a [*APIError], or any other error
    (the [fmt.Errorf] values of the client's transport failures). *)
Inductive error :=
| APIErr (e : APIError)
| OtherErr (msg : string).

(** What a client method hands back: [(&result, nil)] or [(nil, err)]. *)
Inductive result (A : Type) : Type :=
| Ok (a : A)
| Err (e : error).
Arguments Ok {A} a.
Arguments Err {A} e.

Definition IsNotFound (err : error) : bool :=
  match err with
  | APIErr apiErr => StatusCode apiErr =? 404
  | OtherErr _ => false
  end.

End monkapi.

(* ===================================================================== *)
(** ** Package monkfs, file errors.go *)
(* ===================================================================== *)

Module errno.

(** [syscall.Errno] values (identical on Linux and Darwin). *)
Definition Errno := Z.
Definition OK : Errno := 0.
Definition EPERM : Errno := 1.
Definition ENOENT : Errno := 2.
Definition EIO : Errno := 5.
Definition EACCES : Errno := 13.
Definition EEXIST : Errno := 17.
Definition EISDIR : Errno := 21.
Definition EINVAL : Errno := 22.

End errno.
Import errno.

Definition HTTPErrorToErrno (err : option monkapi.error) : Errno :=
  match err with
  | None => 0
  | Some (monkapi.OtherErr _) => EIO
  | Some (monkapi.APIErr apiErr) =>
    let status := monkapi.StatusCode apiErr in
    if status =? 401 then EACCES
    else if status =? 403 then EPERM
    else if status =? 404 then ENOENT
    else if status =? 400 then
      let code := monkapi.ErrorCode apiErr in
      if String.eqb code "INVALID_PATH" then EINVAL
      else if String.eqb code "NOT_A_FILE" then EISDIR
      else if String.eqb code "WILDCARDS_NOT_ALLOWED" then EINVAL
      else EINVAL
    else if status =? 409 then EEXIST
    else EIO
  end.

(* ===================================================================== *)
(** ** Go's path/filepath on a slash-separated system

    [cache.Invalidate] walks up a path with [filepath.Dir]. Volume names
    are empty and [FromSlash] is the identity on such a system, so [Dir]
    is: cut the path after its last separator, then [Clean]. *)
(* ===================================================================== *)

Module filepath.

Definition Separator : ascii := "/"%char.
Definition IsPathSeparator (c : ascii) : bool := Ascii.eqb c Separator.
Definition is_dot (c : ascii) : bool := Ascii.eqb c "."%char.

(** [r == n || IsPathSeparator(path[r])] on the unread part of the path. *)
Definition at_end_or_sep (rest : list ascii) : bool :=
  match rest with
  | [] => true
  | c :: _ => IsPathSeparator c
  end.

(** The output buffer of [Clean] ([lazybuf]) is kept as the list of the
    bytes written so far, the last one written first; [out.w] is its
    length.

    [backtrack cur out dotdot] is the inner loop of the [..] case,
    [for out.w > dotdot && !IsPathSeparator(out.index(out.w)) { out.w-- }],
    where [cur] is the byte at index [out.w]. *)
Fixpoint backtrack (cur : ascii) (out : list ascii) (dotdot : nat)
  : list ascii :=
  match out with
  | [] => []
  | c :: out' =>
    if (dotdot <? length out)%nat && negb (IsPathSeparator cur)
    then backtrack c out' dotdot
    else out
  end.

(** [out.w--] followed by [backtrack]. *)
Definition pop_element (out : list ascii) (dotdot : nat) : list ascii :=
  match out with
  | [] => []
  | c :: out' => backtrack c out' dotdot
  end.

(** [rooted && out.w != 1 || !rooted && out.w != 0]: the buffer holds an
    element already, so the next one is preceded by a separator. *)
Definition need_sep (rooted : bool) (out : list ascii) : bool :=
  (rooted && negb (length out =? 1)%nat)
  || (negb rooted && negb (length out =? 0)%nat).

(** The main loop [for r < n] of [Clean] over the unread part of the
    path. The copy loop of the default case is unrolled into the flag
    [copying]: while it is set, bytes are appended up to the next
    separator, which the outer loop then skips. *)
Fixpoint clean_loop (rooted : bool) (path : list ascii) (out : list ascii)
         (dotdot : nat) (copying : bool) : list ascii :=
  match path with
  | [] => out
  | c :: rest =>
    if copying then
      if IsPathSeparator c
      then clean_loop rooted rest out dotdot false
      else clean_loop rooted rest (c :: out) dotdot true
    else
      let element :=
        (* real path element: add slash if needed, start copying *)
        let out1 := if need_sep rooted out then Separator :: out else out in
        clean_loop rooted rest (c :: out1) dotdot true in
      if IsPathSeparator c then
        (* empty path element *)
        clean_loop rooted rest out dotdot false
      else if is_dot c && at_end_or_sep rest then
        (* . element *)
        clean_loop rooted rest out dotdot false
      else
        match rest with
        | c1 :: rest2 =>
          if is_dot c && is_dot c1 && at_end_or_sep rest2 then
            (* .. element: remove to last separator *)
            if (dotdot <? length out)%nat then
              clean_loop rooted rest2 (pop_element out dotdot) dotdot false
            else if negb rooted then
              let out1 :=
                if (0 <? length out)%nat then Separator :: out else out in
              let out2 := "."%char :: "."%char :: out1 in
              clean_loop rooted rest2 out2 (length out2) false
            else
              clean_loop rooted rest2 out dotdot false
          else element
        | [] => element
        end
  end.

Definition Clean (path : string) : string :=
  match list_ascii_of_string path with
  | [] => "."
  | c :: rest =>
    let out :=
      if IsPathSeparator c
      then clean_loop true rest [Separator] 1 false
      else clean_loop false (c :: rest) [] 0 false in
    match out with
    | [] => "."
    | _ => string_of_list_ascii (rev out)
    end
  end.

(** [for i >= 0 && !IsPathSeparator(path[i]) { i-- }] on the reversed
    path: what is left is [path[:i+1]], reversed. *)
Fixpoint scan_back (rpath : list ascii) : list ascii :=
  match rpath with
  | [] => []
  | c :: r => if IsPathSeparator c then rpath else scan_back r
  end.

Definition Dir (path : string) : string :=
  Clean (string_of_list_ascii
           (rev (scan_back (rev (list_ascii_of_string path))))).

End filepath.

(* ===================================================================== *)
(** ** Package cache: the TTL metadata cache

    The clock is explicit: [Get] and [Set_] take the reading [now] that
    [time.Since] and [time.Now] would see. The mutex is not modelled; every
    operation is one atomic step. *)
(* ===================================================================== *)

Module cache.

Record CacheEntry := {
  data : option monkapi.StatResponse;
  timestamp : Z;
}.

Record MetadataCache := {
  entries : gmap string CacheEntry;
  ttl : Z;
}.

Definition NewMetadataCache (ttl : Z) : MetadataCache :=
  {| entries := ∅; ttl := ttl |}.

Definition Get (c : MetadataCache) (now : Z) (path : string)
  : option monkapi.StatResponse :=
  match entries c !! path with
  | None => None
  | Some entry =>
    if ttl c <? Go.time_Since now (timestamp entry) then None
    else data entry
  end.

Definition Set_ (c : MetadataCache) (now : Z) (path : string)
           (d : option monkapi.StatResponse) : MetadataCache :=
  {| entries := <[path := {| data := d; timestamp := now |}]> (entries c);
     ttl := ttl c |}.

Definition at_root (parent : string) : bool :=
  String.eqb parent "/" || String.eqb parent ".".

(** The loop [for parent := ...; parent != "/" && parent != ".";
    parent = filepath.Dir(parent)], with a bound on its iterations;
    [None] when the bound is hit before the loop exits. *)
Fixpoint Invalidate_parents (fuel : nat) (es : gmap string CacheEntry)
         (parent : string) : option (gmap string CacheEntry) :=
  if at_root parent then Some es
  else match fuel with
       | O => None
       | S fuel' =>
         Invalidate_parents fuel' (delete parent es) (filepath.Dir parent)
       end.

Definition Invalidate (c : MetadataCache) (path : string)
  : option MetadataCache :=
  match Invalidate_parents (S (String.length path))
                           (delete path (entries c))
                           (filepath.Dir path) with
  | Some es => Some {| entries := es; ttl := ttl c |}
  | None => None
  end.

Definition Clear (c : MetadataCache) : MetadataCache :=
  {| entries := ∅; ttl := ttl c |}.

End cache.

(* ===================================================================== *)
(** ** Package monkfs, file fs.go: the node callbacks *)
(* ===================================================================== *)

Module fuse.

(** [fuse.Attr]: the fields [fillAttr] writes, and the others. *)
Record Attr := {
  Ino : Z;
  Size : Z;
  Blocks : Z;
  Atime : Z;
  Mtime : Z;
  Ctime : Z;
  Atimensec : Z;
  Mtimensec : Z;
  Ctimensec : Z;
  Mode : Z;
  Nlink : Z;
  Uid : Z;
  Gid : Z;
  Rdev : Z;
  Blksize : Z;
}.

Record DirEntry := {
  DirEntry_Name : string;
  DirEntry_Mode : Z;
  DirEntry_Ino : Z;
}.

Record StableAttr := {
  StableAttr_Mode : Z;
  StableAttr_Ino : Z;
}.

Definition FOPEN_KEEP_CACHE : Z := 2.
Definition S_IFDIR : Z := 16384.   (* 0o040000 *)
Definition S_IFREG : Z := 32768.   (* 0o100000 *)

End fuse.

Module monkfs.

(** The remote calls a callback issues, in order. *)
Inductive Call :=
| CallList (path : string) (opts : monkapi.ListOptions) (pick : string)
| CallStat (path : string) (pick : string)
| CallRetrieve (path : string) (opts : monkapi.RetrieveOptions)
               (pick : string).

(** The state the callbacks share: the one [MetadataCache] every node
    points to, the clock, and the log of remote calls. *)
Record World := {
  the_cache : cache.MetadataCache;
  clock : Z;
  calls : list Call;
}.

(** Callbacks are state transformers that may panic. *)
Definition M (A : Type) : Type := World → Go.exec (A * World).

Definition ret {A} (a : A) : M A := λ w, Go.Ret (a, w).

Definition bind {A B} (m : M A) (k : A → M B) : M B :=
  λ w, match m w with
       | Go.Ret (a, w') => k a w'
       | Go.Panic msg => Go.Panic msg
       end.

Definition lift {A} (e : Go.exec A) : M A :=
  λ w, match e with
       | Go.Ret a => Go.Ret (a, w)
       | Go.Panic msg => Go.Panic msg
       end.

Declare Scope go_scope.
Delimit Scope go_scope with go.
Notation "x <- m ;; k" := (bind m (λ x, k))
  (at level 100, m at next level, right associativity) : go_scope.
Local Open Scope go_scope.

Definition cache_Get (path : string) : M (option monkapi.StatResponse) :=
  λ w, Go.Ret (cache.Get (the_cache w) (clock w) path, w).

Definition cache_Set (path : string) (d : option monkapi.StatResponse)
  : M unit :=
  λ w, Go.Ret (tt, {| the_cache := cache.Set_ (the_cache w) (clock w) path d;
                      clock := clock w;
                      calls := calls w |}).

Definition S_IFDIR_0755 : Z := Z.lor fuse.S_IFDIR 493.   (* 0755 *)
Definition S_IFREG_0644 : Z := Z.lor fuse.S_IFREG 420.   (* 0644 *)

Definition parseFileMode (permissions fileType : string) : Z :=
  let mode := 0 in
  if String.eqb fileType "d" then Z.lor mode S_IFDIR_0755
  else Z.lor mode S_IFREG_0644.

Definition is_directory (stat : monkapi.StatResponse) : bool :=
  String.eqb (monkapi.StatResponse_Type stat) "directory"
  || String.eqb (monkapi.FileMetadata_Type
                   (monkapi.StatResponse_FileMetadata stat)) "directory".

Definition parseStatMode (stat : monkapi.StatResponse) : Z :=
  if is_directory stat then S_IFDIR_0755 else S_IFREG_0644.

(** FNV-1a, 64 bit ([hash/fnv]'s [New64a]). *)
Definition fnv_offset64 : Z := 14695981039346656037.
Definition fnv_prime64 : Z := 1099511628211.

Definition hashPath (path : string) : Z :=
  fold_left
    (λ h b, (Z.lxor h (Z.of_N (Byte.to_N b)) * fnv_prime64) mod 2 ^ 64)
    (Go.bytes_of_string path) fnv_offset64.

Section Resolver.

(** The dynamic types of content other than string and byte slice,
    and [json.Marshal] on them: the bytes and the error it returns. *)
Context {Other : Type}.
Variable json_Marshal : Other → list byte * option monkapi.error.

(** [time.Parse(time.RFC3339, ts)] followed by [Unix()]: the second
    count of the instant parsed (an [int64]), or [None] for a parse
    error. *)
Variable time_Parse_RFC3339 : string → option Z.

Definition parseMonkTimestamp (ts : string) : Z :=
  if String.eqb ts "" then 0
  else match time_Parse_RFC3339 ts with
       | None => 0
       | Some unix => Go.uint64 unix
       end.

(** The Remote Resource Client as the callbacks see it: each method
    takes the clock reading at the call and gives the reading at its
    return and the result. *)
Record Client := {
  List_ : Z → string → monkapi.ListOptions → string
          → Z * monkapi.result monkapi.ListResponse;
  Stat : Z → string → string
         → Z * monkapi.result monkapi.StatResponse;
  Retrieve : Z → string → monkapi.RetrieveOptions → string
             → Z * monkapi.result (monkapi.RetrieveResponse Other);
}.

(** A node: [inode_path] is what [n.Path(nil)] returns, the names from
    the mount root joined by slashes, empty for the root itself. The
    [cache] pointer of every node is the cache of the [World]. *)
Record MonkFS := {
  inode_path : string;
  apiClient : Client;
}.

Record MonkFileHandle := {
  node : MonkFS;
  path : string;
}.

Record Inode := {
  ops : MonkFS;
  stable : fuse.StableAttr;
}.

(** [n.NewInode(ctx, ops, id)] of go-fuse, as far as the callbacks depend
    on it: the inode made for [ops] keeps the inode number of [id] and, of
    its mode, the file-type bits only ([id.Mode &^ 07777], a regular file
    when nothing is left). The table of the inodes the tree knows is not
    part of this model: the library refuses the inode numbers it reserves
    (1 and 2^64 - 1), picks a number itself for 0 and hands back the inode
    already known under the same number and type, so the model covers a
    lookup whose hashed path is none of these. *)
Definition NewInode (ops : MonkFS) (id : fuse.StableAttr) : Inode :=
  let mode := Z.ldiff (fuse.StableAttr_Mode id) 4095 in   (* &^ 07777 *)
  {| ops := ops;
     stable := {| fuse.StableAttr_Mode :=
                    if mode =? 0 then fuse.S_IFREG else mode;
                  fuse.StableAttr_Ino := fuse.StableAttr_Ino id |} |}.

Definition remote_List (c : Client) (p : string)
           (opts : monkapi.ListOptions) (pick : string)
  : M (monkapi.result monkapi.ListResponse) :=
  λ w, let '(t, r) := List_ c (clock w) p opts pick in
       Go.Ret (r, {| the_cache := the_cache w; clock := t;
                     calls := calls w ++ [CallList p opts pick] |}).

Definition remote_Stat (c : Client) (p : string) (pick : string)
  : M (monkapi.result monkapi.StatResponse) :=
  λ w, let '(t, r) := Stat c (clock w) p pick in
       Go.Ret (r, {| the_cache := the_cache w; clock := t;
                     calls := calls w ++ [CallStat p pick] |}).

Definition remote_Retrieve (c : Client) (p : string)
           (opts : monkapi.RetrieveOptions) (pick : string)
  : M (monkapi.result (monkapi.RetrieveResponse Other)) :=
  λ w, let '(t, r) := Retrieve c (clock w) p opts pick in
       Go.Ret (r, {| the_cache := the_cache w; clock := t;
                     calls := calls w ++ [CallRetrieve p opts pick] |}).

Definition getPath (n : MonkFS) : string :=
  let path := inode_path n in
  if String.eqb path "" then "/" else "/" +:+ path.

(** Where the tree puts a child that [Lookup] returned: its
    [Path(nil)] is the parent's, a slash and the name, and just the
    name under the root. *)
Definition child_inode_path (n : MonkFS) (name : string) : string :=
  if String.eqb (inode_path n) "" then name
  else inode_path n +:+ "/" +:+ name.

Definition fillAttr (attr : fuse.Attr) (stat : monkapi.StatResponse)
  : fuse.Attr :=
  let md := monkapi.StatResponse_FileMetadata stat in
  {| fuse.Ino := fuse.Ino attr;
     fuse.Size := Go.uint64 (monkapi.Size md);
     fuse.Blocks := fuse.Blocks attr;
     fuse.Atime := parseMonkTimestamp (monkapi.AccessTime md);
     fuse.Mtime := parseMonkTimestamp (monkapi.ModifiedTime md);
     fuse.Ctime := parseMonkTimestamp (monkapi.CreatedTime md);
     fuse.Atimensec := fuse.Atimensec attr;
     fuse.Mtimensec := fuse.Mtimensec attr;
     fuse.Ctimensec := fuse.Ctimensec attr;
     fuse.Mode := if is_directory stat then S_IFDIR_0755
                  else S_IFREG_0644;
     fuse.Nlink := fuse.Nlink attr;
     fuse.Uid := fuse.Uid attr;
     fuse.Gid := fuse.Gid attr;
     fuse.Rdev := fuse.Rdev attr;
     fuse.Blksize := fuse.Blksize attr |}.

Definition contentToBytes (content : monkapi.any Other)
  : Go.exec (list byte) :=
  match content with
  | monkapi.AnyNil => Go.Ret []
  | monkapi.AnyString v =>
    (* Remove JSON quotes if present *)
    Go.bind
      (if Go.HasPrefix v Go.quote && Go.HasSuffix v Go.quote
       then Go.slice v 1 (Go.len v - 1)
       else Go.Ret v)
      (λ v', Go.Ret (Go.bytes_of_string v'))
  | monkapi.AnyBytes v => Go.Ret v
  | monkapi.AnyOther v =>
    let '(data, _) := json_Marshal v in Go.Ret data
  end.

Definition list_options : monkapi.ListOptions :=
  {| monkapi.ShowHidden := false; monkapi.LongFormat := true;
     monkapi.Recursive_ := false; monkapi.MaxDepth := 0;
     monkapi.SortBy := ""; monkapi.SortOrder := "";
     monkapi.PatternOptimization := false |}.

Definition Readdir (n : MonkFS)
  : M (option (list fuse.DirEntry) * Errno) :=
  let path := getPath n in
  r <- remote_List (apiClient n) path list_options "entries";;
  match r with
  | monkapi.Err err => ret (None, HTTPErrorToErrno (Some err))
  | monkapi.Ok resp =>
    let entries :=
      map (λ entry,
           {| fuse.DirEntry_Name := monkapi.Name entry;
              fuse.DirEntry_Mode :=
                parseFileMode (monkapi.FilePermissions entry)
                              (monkapi.FileType entry);
              fuse.DirEntry_Ino := hashPath (monkapi.Path entry) |})
          (monkapi.Entries resp) in
    ret (Some entries, 0)
  end.

Definition Getattr (n : MonkFS) (out : fuse.Attr)
  : M (fuse.Attr * Errno) :=
  let path := getPath n in
  cached <- cache_Get path;;
  match cached with
  | Some cached => ret (fillAttr out cached, 0)
  | None =>
    r <- remote_Stat (apiClient n) path "file_metadata";;
    match r with
    | monkapi.Err err =>
      if monkapi.IsNotFound err then ret (out, ENOENT)
      else ret (out, HTTPErrorToErrno (Some err))
    | monkapi.Ok resp =>
      _ <- cache_Set path (Some resp);;
      ret (fillAttr out resp, 0)
    end
  end.

Definition Lookup (n : MonkFS) (name : string) (out : fuse.Attr)
  : M (option Inode * fuse.Attr * Errno) :=
  let path := getPath n +:+ "/" +:+ name in
  r <- remote_Stat (apiClient n) path "file_metadata";;
  match r with
  | monkapi.Err err =>
    if monkapi.IsNotFound err then ret (None, out, ENOENT)
    else ret (None, out, HTTPErrorToErrno (Some err))
  | monkapi.Ok resp =>
    _ <- cache_Set path (Some resp);;
    let child :=
      NewInode {| inode_path := child_inode_path n name;
                  apiClient := apiClient n |}
               {| fuse.StableAttr_Mode := parseStatMode resp;
                  fuse.StableAttr_Ino := hashPath path |} in
    ret (Some child, fillAttr out resp, 0)
  end.

Definition Open (n : MonkFS) (flags : Z)
  : M (option MonkFileHandle * Z * Errno) :=
  let path := getPath n in
  r <- remote_Stat (apiClient n) path "";;
  match r with
  | monkapi.Err err =>
    if monkapi.IsNotFound err then ret (None, 0, ENOENT)
    else ret (None, 0, HTTPErrorToErrno (Some err))
  | monkapi.Ok _ =>
    ret (Some {| node := n; path := path |}, fuse.FOPEN_KEEP_CACHE, 0)
  end.

(** [dest] only matters through [len(dest)]. *)
Definition Read (fh : MonkFileHandle) (len_dest : Z) (off : Z)
  : M (option (list byte) * Errno) :=
  r <- remote_Retrieve (apiClient (node fh)) (path fh)
         {| monkapi.StartOffset := off; monkapi.MaxBytes := len_dest |}
         "content";;
  match r with
  | monkapi.Err err => ret (None, HTTPErrorToErrno (Some err))
  | monkapi.Ok resp =>
    data <- lift (contentToBytes (monkapi.Content resp));;
    if Go.blen data <=? off then ret (Some [], 0)
    else
      tail <- lift (Go.bslice_from data off);;
      ret (Some tail, 0)
  end.

End Resolver.

End monkfs.

(* ===================================================================== *)
(** ** Timestamps: Go's time.Parse on the RFC 3339 layout

    The callbacks are parametric in [time.Parse]. To run them on concrete
    timestamps, [rfc3339.seconds] is plugged in: [time.Parse] with the
    layout [time.RFC3339] ("2006-01-02T15:04:05Z07:00") followed by
    [Unix()], as the layout-driven parser of the standard library reads a
    value, chunk by chunk. Beside it, [rfc3339.strict] reads the timestamps
    of RFC 3339 proper, in the profile with upper-case [T] and [Z] and no
    leap second. *)
(* ===================================================================== *)

Module rfc3339.

Definition digit (c : ascii) : option Z :=
  let n := Z.of_nat (nat_of_ascii c) in
  if (48 <=? n) && (n <=? 57) then Some (n - 48) else None.

(** Exactly [k] decimal digits. *)
Fixpoint number (k : nat) (acc : Z) (s : list ascii)
  : option (Z * list ascii) :=
  match k with
  | O => Some (acc, s)
  | S k' =>
    match s with
    | c :: s' =>
      match digit c with
      | Some d => number k' (10 * acc + d) s'
      | None => None
      end
    | [] => None
    end
  end.

Definition expect (c : ascii) (s : list ascii) : option (list ascii) :=
  match s with
  | c' :: s' => if Ascii.eqb c c' then Some s' else None
  | [] => None
  end.

Fixpoint skip_digits (s : list ascii) : list ascii :=
  match s with
  | c :: s' => match digit c with Some _ => skip_digits s' | None => s end
  | [] => []
  end.

Definition is_leap (y : Z) : bool :=
  (y mod 4 =? 0) && (negb (y mod 100 =? 0) || (y mod 400 =? 0)).

Definition days_in_month (y m : Z) : Z :=
  if m =? 2 then (if is_leap y then 29 else 28)
  else if (m =? 4) || (m =? 6) || (m =? 9) || (m =? 11) then 30
  else 31.

(** Days from 1970-01-01 to the civil date, proleptic Gregorian. *)
Definition days_from_civil (y m d : Z) : Z :=
  let y' := if m <=? 2 then y - 1 else y in
  let era := y' / 400 in
  let yoe := y' - era * 400 in
  let mp := if 2 <? m then m - 3 else m + 9 in
  let doy := (153 * mp + 2) / 5 + d - 1 in
  let doe := yoe * 365 + yoe / 4 - yoe / 100 + doy in
  era * 146097 + doe - 719468.

Definition check (b : bool) : option unit := if b then Some tt else None.

(** *** RFC 3339 proper

    [YYYY-MM-DDThh:mm:ss[.fraction](Z|+hh:mm|-hh:mm)], every field of
    fixed width and in range. *)




(** *** time.Parse(time.RFC3339, ts), then Unix() *)

(** [getnum(s, fixed)]: one or two digits; two are required when [fixed]. *)
Definition getnum (fixed : bool) (s : list ascii)
  : option (Z * list ascii) :=
  match s with
  | c :: s1 =>
    match digit c with
    | None => None
    | Some d =>
      match s1 with
      | c1 :: s2 =>
        match digit c1 with
        | Some d1 => Some (d * 10 + d1, s2)
        | None => if fixed then None else Some (d, s1)
        end
      | [] => if fixed then None else Some (d, s1)
      end
    end
  | [] => None
  end.

Definition commaOrPeriod (c : ascii) : bool :=
  Ascii.eqb c "."%char || Ascii.eqb c ","%char.

(** After the seconds: a fraction that the layout does not have is read
    all the same, when the value has a dot or a comma and a digit there; it
    does not change the second count. *)
Definition fraction (s : list ascii) : list ascii :=
  match s with
  | c :: c1 :: s' =>
    if commaOrPeriod c && (if digit c1 is Some _ then true else false)
    then skip_digits s' else s
  | _ => s
  end.

(** The chunk [Z07:00]: a [Z], or a sign, two digits, a colon and two
    digits, with the hours up to 24 and the minutes up to 60; the offset in
    seconds and the rest of the value. *)
Definition zone (s : list ascii) : option (Z * list ascii) :=
  match s with
  | c :: rest =>
    if Ascii.eqb c "Z"%char then Some (0, rest)
    else
      match s with
      | sign :: h1 :: h2 :: colon :: m1 :: m2 :: rest6 =>
        _ ← check (Ascii.eqb colon ":"%char);
        '(hr, _) ← getnum true [h1; h2];
        '(mm, _) ← getnum true [m1; m2];
        _ ← check (negb (24 <? hr) && negb (60 <? mm));
        let zoneOffset := (hr * 60 + mm) * 60 in
        if Ascii.eqb sign "+"%char then Some (zoneOffset, rest6)
        else if Ascii.eqb sign "-"%char then Some (- zoneOffset, rest6)
        else None
      | _ => None
      end
  | [] => None
  end.

Definition seconds (ts : string) : option Z :=
  s ← Some (list_ascii_of_string ts);
  '(year, s) ← number 4 0 s;
  s ← expect "-"%char s;
  '(month, s) ← getnum true s;
  _ ← check (negb ((month <=? 0) || (12 <? month)));
  s ← expect "-"%char s;
  '(day, s) ← getnum true s;
  s ← expect "T"%char s;
  '(hour, s) ← getnum false s;
  _ ← check (negb ((hour <? 0) || (24 <=? hour)));
  s ← expect ":"%char s;
  '(min, s) ← getnum true s;
  _ ← check (negb ((min <? 0) || (60 <=? min)));
  s ← expect ":"%char s;
  '(sec, s) ← getnum true s;
  _ ← check (negb ((sec <? 0) || (60 <=? sec)));
  '(zoneOffset, s) ← zone (fraction s);
  (* extra text after the layout is an error *)
  _ ← check (if s is [] then true else false);
  (* the day of the month is validated last *)
  _ ← check (negb ((day <? 1) || (days_in_month year month <? day)));
  Some (days_from_civil year month day * 86400
        + hour * 3600 + min * 60 + sec - zoneOffset).

End rfc3339.


(* ===================================================================== *)
(** ** Vocabulary of the properties *)
(* ===================================================================== *)

(** Accounting for the bytes of [filepath.Clean]: [slack] is the byte owed
    to a separator that the next element will need, [ends_sep] the byte
    gained when the path ends in a separator. *)
Definition slack (rooted : bool) (path out : list ascii) (copying : bool)
  : nat :=
  if copying || filepath.at_end_or_sep path then 0%nat
  else if filepath.need_sep rooted out then 1%nat else 0%nat.

Definition ends_sep (path : list ascii) : nat :=
  match last path with
  | Some c => if filepath.IsPathSeparator c then 1%nat else 0%nat
  | None => 0%nat
  end.

(** The directories above [p], nearest first: [Dir p], [Dir (Dir p)], ...
    up to but excluding the first root marker. The bound is never hit
    (lemma [ancestors_from_iter]). *)
Fixpoint ancestors_from (fuel : nat) (parent : string) : list string :=
  if cache.at_root parent then []
  else match fuel with
       | O => []
       | S fuel' => parent :: ancestors_from fuel' (filepath.Dir parent)
       end.

Definition ancestors (p : string) : list string :=
  ancestors_from (S (String.length p)) (filepath.Dir p).

(** Absolute paths in canonical form: a slash before each name, where a
    name is non-empty, holds no slash and is neither [.] nor [..]. *)
Definition is_name (s : string) : bool :=
  negb (String.eqb s "") && negb (String.eqb s ".")
  && negb (String.eqb s "..")
  && forallb (λ c, negb (filepath.IsPathSeparator c))
             (list_ascii_of_string s).

Fixpoint join_abs (segs : list string) : string :=
  match segs with
  | [] => ""
  | s :: rest => "/" +:+ s +:+ join_abs rest
  end.

Definition abs_path (segs : list string) : string :=
  match segs with
  | [] => "/"
  | _ :: _ => join_abs segs
  end.

(** The paths of the first [k], [k-1], ..., 1 names of [segs]. *)
Fixpoint up_chain (k : nat) (segs : list string) : list string :=
  match k with
  | O => []
  | S k' => abs_path (take k segs) :: up_chain k' segs
  end.

(** The node [Lookup] creates for [name] under [n], once the tree has
    attached it. *)
Definition child_of {Other : Type} (n : monkfs.MonkFS (Other:=Other))
           (name : string) : monkfs.MonkFS :=
  {| monkfs.inode_path := monkfs.child_inode_path n name;
     monkfs.apiClient := monkfs.apiClient n |}.

(** The errno of a callback whose remote fetch failed with [err]: the
    not-found test comes first, the translation table second. *)
Definition failure_errno (err : monkapi.error) : Errno :=
  if monkapi.IsNotFound err then ENOENT else HTTPErrorToErrno (Some err).

(** The reply of Retrieve in the words of the design document: it
    "requests a byte range", and the remote side may return fewer bytes
    than [maxBytes]. The remote side is not part of this repository;
    [requested_range file opts] is the range of the content [file] that a
    request with the options [opts] names. *)
Definition requested_range (file : list byte)
           (opts : monkapi.RetrieveOptions) : list byte :=
  take (Z.to_nat (monkapi.MaxBytes opts))
       (drop (Z.to_nat (monkapi.StartOffset opts)) file).

(* ===================================================================== *)
(** ** Concrete scenarios

    A client with scripted replies and an initial world, to run the
    callbacks on. Content of other dynamic types is absent ([unit] with a
    marshaller that is never consulted by the scenarios). *)
(* ===================================================================== *)

Module scenario.

Definition marshal (_ : unit) : list byte * option monkapi.error :=
  ([], None).

Definition reply (content : monkapi.any unit)
  : monkapi.RetrieveResponse unit :=
  {| monkapi.RetrieveResponse_Success := true;
     monkapi.Content := content |}.

(** Every remote call takes one clock tick. *)
Definition client (stat : string → monkapi.result monkapi.StatResponse)
           (content : monkapi.any unit) : monkfs.Client :=
  {| monkfs.List_ := λ now _ _ _,
       (now + 1, monkapi.Err (monkapi.OtherErr "connection refused"));
     monkfs.Stat := λ now p _, (now + 1, stat p);
     monkfs.Retrieve := λ now _ _ _,
       (now + 1, monkapi.Ok (reply content)) |}.

Definition second : Z := 1000000000.

(** The state [NewMonkFS] sets up: an empty cache with a 30 s TTL. *)
Definition world0 : monkfs.World :=
  {| monkfs.the_cache := cache.NewMetadataCache (30 * second);
     monkfs.clock := 0;
     monkfs.calls := [] |}.

Definition report_stat : monkapi.StatResponse :=
  {| monkapi.StatResponse_Success := true;
     monkapi.StatResponse_FileMetadata :=
       {| monkapi.Size := 42;
          monkapi.ModifiedTime := "2025-01-01T00:00:00Z";
          monkapi.CreatedTime := "";
          monkapi.AccessTime := "not a time";
          monkapi.FileMetadata_Type := "";
          monkapi.Permissions := "" |};
     monkapi.StatResponse_Type := "file" |}.

Definition not_found : monkapi.error :=
  monkapi.APIErr {| monkapi.StatusCode := 404;
                    monkapi.ErrorCode := "RECORD_NOT_FOUND";
                    monkapi.Message := "no such record" |}.

Definition attr0 : fuse.Attr :=
  {| fuse.Ino := 0; fuse.Size := 0; fuse.Blocks := 0; fuse.Atime := 0;
     fuse.Mtime := 0; fuse.Ctime := 0; fuse.Atimensec := 0;
     fuse.Mtimensec := 0; fuse.Ctimensec := 0; fuse.Mode := 0;
     fuse.Nlink := 0; fuse.Uid := 0; fuse.Gid := 0; fuse.Rdev := 0;
     fuse.Blksize := 0 |}.

Definition abc : list byte := [Byte.x61; Byte.x62; Byte.x63].

(** A regular file [/f] whose content the remote gives as [content]. *)
Definition file_node (content : monkapi.any unit) : monkfs.MonkFS :=
  {| monkfs.inode_path := "f";
     monkfs.apiClient := client (λ _, monkapi.Ok report_stat) content |}.

Definition handle (content : monkapi.any unit) : monkfs.MonkFileHandle :=
  {| monkfs.node := file_node content; monkfs.path := "/f" |}.

(** A regular file [/f] over a remote that answers every Retrieve with
    the requested range of [file]. *)
Definition ranged_client (file : list byte) : monkfs.Client :=
  {| monkfs.List_ := λ now _ _ _,
       (now + 1, monkapi.Err (monkapi.OtherErr "connection refused"));
     monkfs.Stat := λ now _ _, (now + 1, monkapi.Ok report_stat);
     monkfs.Retrieve := λ now _ opts _,
       (now + 1,
        monkapi.Ok (reply (monkapi.AnyBytes (requested_range file opts)))) |}.

Definition ranged_handle (file : list byte) : monkfs.MonkFileHandle :=
  {| monkfs.node := {| monkfs.inode_path := "f";
                       monkfs.apiClient := ranged_client file |};
     monkfs.path := "/f" |}.

(** The mount root, over a remote where everything exists. *)
Definition root : monkfs.MonkFS :=
  {| monkfs.inode_path := "";
     monkfs.apiClient :=
       client (λ _, monkapi.Ok report_stat) monkapi.AnyNil |}.

(** A world where [/f] was cached at clock reading 0, five ticks ago. *)
Definition warm_world : monkfs.World :=
  {| monkfs.the_cache :=
       cache.Set_ (cache.NewMetadataCache (30 * second)) 0 "/f"
                  (Some report_stat);
     monkfs.clock := 5;
     monkfs.calls := [] |}.

(** What a Lookup of [foo] on [root] gives from [world0]: the child node,
    and the world with the snapshot stored under the key of Lookup. *)
Definition foo_child : monkfs.MonkFS :=
  {| monkfs.inode_path := "foo";
     monkfs.apiClient := monkfs.apiClient root |}.

Definition foo_inode : monkfs.Inode :=
  {| monkfs.ops := foo_child;
     monkfs.stable :=
       {| fuse.StableAttr_Mode := fuse.S_IFREG;
          fuse.StableAttr_Ino := monkfs.hashPath "//foo" |} |}.

Definition after_lookup : monkfs.World :=
  {| monkfs.the_cache :=
       cache.Set_ (cache.NewMetadataCache (30 * second)) 1 "//foo"
                  (Some report_stat);
     monkfs.clock := 1;
     monkfs.calls := [monkfs.CallStat "//foo" "file_metadata"] |}.

(** A cache holding [/a/b/c], its ancestors, a sibling and the root. *)
Definition tree_entry : cache.CacheEntry :=
  {| cache.data := Some report_stat; cache.timestamp := 0 |}.

Definition tree_cache : cache.MetadataCache :=
  {| cache.entries :=
       list_to_map [("/a/b/c", tree_entry); ("/a/b", tree_entry);
                    ("/a", tree_entry); ("/a/x", tree_entry);
                    ("/", tree_entry)];
     cache.ttl := 30 * second |}.

(** A node over a remote where nothing exists. *)
Definition ghost : monkfs.MonkFS :=
  {| monkfs.inode_path := "data/missing";
     monkfs.apiClient := client (λ _, monkapi.Err not_found) monkapi.AnyNil |}.

End scenario.
(* ===================================================================== *)
(** ** The mounted root, and time passing between callbacks *)
(* ===================================================================== *)

(** [time.Second], in nanoseconds. *)
Definition time_Second : Z := 1000000000.

(** [NewMonkFS(apiClient)]: the root node and the cache it creates, with
    the 30 s TTL; [now] is the clock reading at the mount. Once mounted,
    [Path(nil)] of the root is empty. *)
Definition NewMonkFS {Other : Type} (apiClient : monkfs.Client (Other:=Other))
           (now : Z) : monkfs.MonkFS * monkfs.World :=
  ({| monkfs.inode_path := ""; monkfs.apiClient := apiClient |},
   {| monkfs.the_cache := cache.NewMetadataCache (30 * time_Second);
      monkfs.clock := now;
      monkfs.calls := [] |}).

(** The world when the clock has moved to [later] between two callbacks. *)
Definition at_time (w : monkfs.World) (later : Z) : monkfs.World :=
  {| monkfs.the_cache := monkfs.the_cache w;
     monkfs.clock := later;
     monkfs.calls := monkfs.calls w |}.

(** [syscall.S_IFMT], the mask of the file-type bits of a mode. *)
Definition S_IFMT : Z := 61440.   (* 0o170000 *)

(* ===================================================================== *)
(** ** More scenarios: a directory with a listing, a remote that is down *)
(* ===================================================================== *)

Module cases.

Definition no_metadata : monkapi.FileMetadata :=
  {| monkapi.Size := 0; monkapi.ModifiedTime := "";
     monkapi.CreatedTime := ""; monkapi.AccessTime := "";
     monkapi.FileMetadata_Type := ""; monkapi.Permissions := "" |}.

Definition dir_stat : monkapi.StatResponse :=
  {| monkapi.StatResponse_Success := true;
     monkapi.StatResponse_FileMetadata := no_metadata;
     monkapi.StatResponse_Type := "directory" |}.

Definition issues : monkapi.FileEntry :=
  {| monkapi.Name := "issues"; monkapi.FileType := "d";
     monkapi.FileSize := 0; monkapi.FilePermissions := "rwx";
     monkapi.FileModified := ""; monkapi.Path := "/data/issues" |}.

Definition readme : monkapi.FileEntry :=
  {| monkapi.Name := "readme"; monkapi.FileType := "f";
     monkapi.FileSize := 42; monkapi.FilePermissions := "r--";
     monkapi.FileModified := ""; monkapi.Path := "/data/readme" |}.

Definition listing : monkapi.ListResponse :=
  {| monkapi.ListResponse_Success := true;
     monkapi.Entries := [issues; readme];
     monkapi.Total := 2; monkapi.HasMore := false;
     monkapi.ListResponse_FileMetadata := no_metadata |}.

(** A remote that lists [listing] everywhere and knows every path as the
    report file; each call takes one tick. *)
Definition up : monkfs.Client (Other:=unit) :=
  {| monkfs.List_ := λ now _ _ _, (now + 1, monkapi.Ok listing);
     monkfs.Stat := λ now _ _, (now + 1, monkapi.Ok scenario.report_stat);
     monkfs.Retrieve := λ now _ _ _,
       (now + 1, monkapi.Ok (scenario.reply monkapi.AnyNil)) |}.

(** A remote that cannot be reached. *)
Definition refused : monkapi.error := monkapi.OtherErr "connection refused".

Definition down : monkfs.Client (Other:=unit) :=
  {| monkfs.List_ := λ now _ _ _, (now + 1, monkapi.Err refused);
     monkfs.Stat := λ now _ _, (now + 1, monkapi.Err refused);
     monkfs.Retrieve := λ now _ _ _, (now + 1, monkapi.Err refused) |}.

Definition data_dir (c : monkfs.Client (Other:=unit)) : monkfs.MonkFS :=
  {| monkfs.inode_path := "data"; monkfs.apiClient := c |}.

Definition file_f (c : monkfs.Client (Other:=unit)) : monkfs.MonkFS :=
  {| monkfs.inode_path := "f"; monkfs.apiClient := c |}.

(** [/f] was cached at clock reading 0; it is now 31 s later. *)
Definition stale_world : monkfs.World :=
  at_time scenario.warm_world (31 * time_Second).

End cases.

(* ===================================================================== *)
(** ** Package monkapi, file client.go: the HTTP client

    The libraries under the client are parameters: [encoding/json]
    (marshalling the request, unmarshalling each response shape),
    [net/url] ([QueryEscape], and whether a URL parses), and [net/http]
    ([Do]: from the clock reading at the call and the request, the reading
    at the return and the response, if one came). The message of an error
    that is not an [*APIError] is never inspected by the callers; it is
    kept to the prefix of its format. *)
(* ===================================================================== *)

Module http.

Record Request := {
  Method : string;
  URL : string;
  Header : list (string * string);
  Body : list byte;
}.

(** A response: its status code, and what [io.ReadAll] gets from its body
    ([None] when reading fails). *)
Record Response := {
  StatusCode : Z;
  ReadAll : option (list byte);
}.

Definition StatusOK : Z := 200.

End http.

Module monkclient.

Record APIWrapper := {
  APIWrapper_Success : bool;
  Data : list byte;             (* json.RawMessage *)
}.

Record ErrorResponse := {
  ErrorResponse_Success : bool;
  Error : string;
  ErrorCode : string;
}.

Record StoreOptions := {
  CreateMissing : bool;
}.

Record StoreResponse := {
  StoreResponse_Success : bool;
  StoreResponse_FileMetadata : monkapi.FileMetadata;
}.

Record Client := {
  baseURL : string;
  token : string;
}.

Definition NewClient (baseURL token : string) : Client :=
  {| baseURL := baseURL; token := token |}.

Section Client.

Context {Other : Type}.

(** The request maps the four operations build. *)
Inductive RequestBody :=
| ListBody (path : string) (file_options : monkapi.ListOptions)
| StatBody (path : string)
| RetrieveBody (path : string) (file_options : monkapi.RetrieveOptions)
| StoreBody (path : string) (content : monkapi.any Other)
            (file_options : StoreOptions).

Variable json_Marshal : RequestBody → option (list byte).
Variable url_parses : string → bool.
Variable QueryEscape : string → string.
Variable Do : Z → http.Request → Z * option http.Response.
Variable Unmarshal_ErrorResponse : list byte → option ErrorResponse.
Variable Unmarshal_APIWrapper : list byte → option APIWrapper.
Variable Unmarshal_ListResponse : list byte → option monkapi.ListResponse.
Variable Unmarshal_StatResponse : list byte → option monkapi.StatResponse.
Variable Unmarshal_RetrieveResponse
  : list byte → option (monkapi.RetrieveResponse Other).
Variable Unmarshal_StoreResponse : list byte → option StoreResponse.

(** The request [post] hands to the HTTP client: [NewRequestWithContext]
    with the method POST, then the two [Header.Set]. *)
Definition new_request (c : Client) (endpoint : string)
           (jsonData : list byte) : option http.Request :=
  let url := baseURL c +:+ endpoint in
  if url_parses url then
    let header := [("Content-Type", "application/json")] in
    let header :=
      if negb (String.eqb (token c) "")
      then header ++ [("Authorization", "Bearer " +:+ token c)]
      else header in
    Some {| http.Method := "POST"; http.URL := url;
            http.Header := header; http.Body := jsonData |}
  else None.

Definition post (c : Client) (now : Z) (endpoint : string)
           (body : RequestBody) : Z * monkapi.result (list byte) :=
  match json_Marshal body with
  | None => (now, monkapi.Err (monkapi.OtherErr "marshal request"))
  | Some jsonData =>
    match new_request c endpoint jsonData with
    | None => (now, monkapi.Err (monkapi.OtherErr "create request"))
    | Some req =>
      match Do now req with
      | (t, None) => (t, monkapi.Err (monkapi.OtherErr "http request"))
      | (t, Some resp) =>
        match http.ReadAll resp with
        | None => (t, monkapi.Err (monkapi.OtherErr "read response"))
        | Some respBody =>
          if negb (http.StatusCode resp =? http.StatusOK) then
            match Unmarshal_ErrorResponse respBody with
            | Some errResp =>
              (t, monkapi.Err
                    (monkapi.APIErr
                       {| monkapi.StatusCode := http.StatusCode resp;
                          monkapi.ErrorCode := ErrorCode errResp;
                          monkapi.Message := Error errResp |}))
            | None => (t, monkapi.Err (monkapi.OtherErr "http"))
            end
          else (t, monkapi.Ok respBody)
        end
      end
    end
  end.

(** [endpoint := base; if pick != "" { endpoint += "?pick=" + ... }]. *)
Definition with_pick (endpoint pick : string) : string :=
  if negb (String.eqb pick "")
  then endpoint +:+ "?pick=" +:+ QueryEscape pick
  else endpoint.

(** The tail shared by the four operations: unwrap the envelope, then
    unmarshal its data. *)
Definition unwrap {A : Type} (unmarshal : list byte → option A)
           (what : string) (r : Z * monkapi.result (list byte))
  : Z * monkapi.result A :=
  match r with
  | (t, monkapi.Err err) => (t, monkapi.Err err)
  | (t, monkapi.Ok respBody) =>
    match Unmarshal_APIWrapper respBody with
    | None => (t, monkapi.Err (monkapi.OtherErr "unmarshal wrapper"))
    | Some wrapper =>
      match unmarshal (Data wrapper) with
      | None => (t, monkapi.Err (monkapi.OtherErr what))
      | Some result => (t, monkapi.Ok result)
      end
    end
  end.

Definition List_ (c : Client) (now : Z) (path : string)
           (opts : monkapi.ListOptions) (pick : string)
  : Z * monkapi.result monkapi.ListResponse :=
  unwrap Unmarshal_ListResponse "unmarshal list response"
         (post c now (with_pick "/api/file/list" pick) (ListBody path opts)).

Definition Stat (c : Client) (now : Z) (path : string) (pick : string)
  : Z * monkapi.result monkapi.StatResponse :=
  unwrap Unmarshal_StatResponse "unmarshal stat response"
         (post c now (with_pick "/api/file/stat" pick) (StatBody path)).

Definition Retrieve (c : Client) (now : Z) (path : string)
           (opts : monkapi.RetrieveOptions) (pick : string)
  : Z * monkapi.result (monkapi.RetrieveResponse Other) :=
  unwrap Unmarshal_RetrieveResponse "unmarshal retrieve response"
         (post c now (with_pick "/api/file/retrieve" pick)
               (RetrieveBody path opts)).

Definition Store (c : Client) (now : Z) (path : string)
           (content : monkapi.any Other) (opts : StoreOptions)
           (pick : string) : Z * monkapi.result StoreResponse :=
  unwrap Unmarshal_StoreResponse "unmarshal store response"
         (post c now (with_pick "/api/file/store" pick)
               (StoreBody path content opts)).

(** The client as the node callbacks use it. *)
Definition as_apiClient (c : Client) : monkfs.Client (Other:=Other) :=
  {| monkfs.List_ := List_ c;
     monkfs.Stat := Stat c;
     monkfs.Retrieve := Retrieve c |}.

End Client.

End monkclient.

(** What the status of the HTTP response says about the result [r] that
    an operation of the client hands back at clock reading [t], after a
    call at reading [now]: success needs a response with status 200, an
    API error a response with another status, which is its status code. *)
Definition by_status (Do : Z → http.Request → Z * option http.Response)
           (now t : Z) {A : Type} (r : monkapi.result A) : Prop :=
  match r with
  | monkapi.Ok _ =>
    ∃ req resp, Do now req = (t, Some resp)
                ∧ http.StatusCode resp = http.StatusOK
  | monkapi.Err (monkapi.APIErr e) =>
    ∃ req resp, Do now req = (t, Some resp)
                ∧ http.StatusCode resp ≠ http.StatusOK
                ∧ monkapi.StatusCode e = http.StatusCode resp
  | monkapi.Err (monkapi.OtherErr _) => True
  end.

(* ===================================================================== *)
(** ** Scripted servers for the HTTP client *)
(* ===================================================================== *)

Module served.

Definition marshal (_ : monkclient.RequestBody (Other:=unit))
  : option (list byte) := Some [].

Definition any_url (_ : string) : bool := true.

Definition no_escape (s : string) : string := s.

(** A server that answers every request, one tick later, with the given
    status and an empty body. *)
Definition answer (status : Z) (now : Z) (_ : http.Request)
  : Z * option http.Response :=
  (now + 1, Some {| http.StatusCode := status; http.ReadAll := Some [] |}).

(** The body read as a JSON error object, and as something that is not
    JSON at all. *)
Definition json_error (_ : list byte) : option monkclient.ErrorResponse :=
  Some {| monkclient.ErrorResponse_Success := false;
          monkclient.Error := "no such record";
          monkclient.ErrorCode := "RECORD_NOT_FOUND" |}.

Definition not_json (_ : list byte) : option monkclient.ErrorResponse := None.

(** An envelope and a payload that both say [success: false]. *)
Definition envelope (_ : list byte) : option monkclient.APIWrapper :=
  Some {| monkclient.APIWrapper_Success := false; monkclient.Data := [] |}.

Definition unsuccessful_stat : monkapi.StatResponse :=
  {| monkapi.StatResponse_Success := false;
     monkapi.StatResponse_FileMetadata :=
       monkapi.StatResponse_FileMetadata scenario.report_stat;
     monkapi.StatResponse_Type := "file" |}.

Definition stat_payload (_ : list byte) : option monkapi.StatResponse :=
  Some unsuccessful_stat.

Definition no_list (_ : list byte) : option monkapi.ListResponse := None.

Definition no_content (_ : list byte)
  : option (monkapi.RetrieveResponse unit) := None.

(** The client of the defaults of the command line, with a token. *)
Definition local : monkclient.Client :=
  monkclient.NewClient "http://localhost:8000" "secret".

(** The node callbacks' client over a server with the given status and
    reading of error bodies. *)
Definition api (status : Z)
           (read_error : list byte → option monkclient.ErrorResponse)
  : monkfs.Client (Other:=unit) :=
  monkclient.as_apiClient marshal any_url no_escape (answer status)
                          read_error envelope no_list stat_payload
                          no_content local.

Definition node_f (status : Z)
           (read_error : list byte → option monkclient.ErrorResponse)
  : monkfs.MonkFS :=
  {| monkfs.inode_path := "f"; monkfs.apiClient := api status read_error |}.

End served.

(* ===================================================================== *)
(** * Properties *)
(* ===================================================================== *)

Import monkapi.

(** ** Strings and byte slices *)

Lemma substring_0_append (a b : string) :
  String.substring 0 (String.length a) (a +:+ b) = a.
Proof.
  induction a as [|c a IH]; simpl.
  - by destruct b.
  - by rewrite IH.
Qed.

Lemma substring_skip_append (a b : string) (n : nat) :
  String.substring (String.length a) n (a +:+ b) = String.substring 0 n b.
Proof. induction a as [|c a IH]; simpl; done. Qed.

Lemma substring_0_length (a : string) :
  String.substring 0 (String.length a) a = a.
Proof. induction a as [|c a IH]; simpl; [done | by rewrite IH]. Qed.

Lemma length_append (a b : string) :
  String.length (a +:+ b) = (String.length a + String.length b)%nat.
Proof. induction a as [|c a IH]; simpl; [done | by rewrite IH]. Qed.

Lemma HasPrefix_append (p s : string) : Go.HasPrefix (p +:+ s) p = true.
Proof.
  unfold Go.HasPrefix, Go.len. rewrite length_append, substring_0_append.
  rewrite String.eqb_refl, andb_true_r. apply Z.leb_le. lia.
Qed.

Lemma HasSuffix_append (s q : string) : Go.HasSuffix (s +:+ q) q = true.
Proof.
  unfold Go.HasSuffix, Go.len. rewrite length_append.
  replace (String.length s + String.length q - String.length q)%nat
    with (String.length s) by lia.
  rewrite substring_skip_append, substring_0_length.
  rewrite String.eqb_refl, andb_true_r. apply Z.leb_le. lia.
Qed.

(** Cutting the first and the last byte off a quoted string. *)
Lemma slice_quoted (inner : string) :
  let v := Go.quote +:+ inner +:+ Go.quote in
  Go.slice v 1 (Go.len v - 1) = Go.Ret inner.
Proof.
  intros v. unfold Go.slice.
  assert (Hlen : Go.len v = Z.of_nat (String.length inner) + 2).
  { unfold v, Go.len. rewrite !length_append. simpl. lia. }
  rewrite Hlen.
  replace (Z.of_nat (String.length inner) + 2 - 1 - 1)
    with (Z.of_nat (String.length inner)) by lia.
  rewrite Nat2Z.id.
  destruct (_ && _) eqn:E.
  - f_equal. change (Z.to_nat 1) with 1%nat.
    change v with (String (ascii_of_nat 34) (inner +:+ Go.quote)).
    change (substring 0 (String.length inner) (inner +:+ Go.quote) = inner).
    apply substring_0_append.
  - exfalso. rewrite !andb_false_iff, !Z.leb_gt in E. lia.
Qed.

Lemma drop_all_bytes (data : list byte) (off : Z) :
  Go.blen data <= off → drop (Z.to_nat off) data = [].
Proof. unfold Go.blen. intros H. apply drop_ge. lia. Qed.

(** ** Error translation (errors.go) *)

(** C3: the error translator is a total function of the failure: no error
    gives 0; an API error gives EACCES for 401, EPERM for 403, ENOENT for
    404 whatever the application code, EISDIR for 400 with NOT_A_FILE,
    EINVAL for 400 with any other application code (INVALID_PATH,
    WILDCARDS_NOT_ALLOWED, unset, ...), EEXIST for 409 and EIO for every
    other status; every failure that is not an API error gives EIO. *)
Theorem HTTPErrorToErrno_table :
  HTTPErrorToErrno None = 0
  ∧ (∀ code msg,
       HTTPErrorToErrno
         (Some (APIErr {| StatusCode := 401; ErrorCode := code;
                          Message := msg |})) = EACCES)
  ∧ (∀ code msg,
       HTTPErrorToErrno
         (Some (APIErr {| StatusCode := 403; ErrorCode := code;
                          Message := msg |})) = EPERM)
  ∧ (∀ code msg,
       HTTPErrorToErrno
         (Some (APIErr {| StatusCode := 404; ErrorCode := code;
                          Message := msg |})) = ENOENT)
  ∧ (∀ msg,
       HTTPErrorToErrno
         (Some (APIErr {| StatusCode := 400; ErrorCode := "NOT_A_FILE";
                          Message := msg |})) = EISDIR)
  ∧ (∀ msg,
       HTTPErrorToErrno
         (Some (APIErr {| StatusCode := 400; ErrorCode := "INVALID_PATH";
                          Message := msg |})) = EINVAL)
  ∧ (∀ msg,
       HTTPErrorToErrno
         (Some (APIErr {| StatusCode := 400;
                          ErrorCode := "WILDCARDS_NOT_ALLOWED";
                          Message := msg |})) = EINVAL)
  ∧ (∀ code msg,
       code ≠ "NOT_A_FILE" →
       HTTPErrorToErrno
         (Some (APIErr {| StatusCode := 400; ErrorCode := code;
                          Message := msg |})) = EINVAL)
  ∧ (∀ code msg,
       HTTPErrorToErrno
         (Some (APIErr {| StatusCode := 409; ErrorCode := code;
                          Message := msg |})) = EEXIST)
  ∧ (∀ status code msg,
       status ≠ 401 → status ≠ 403 → status ≠ 404 → status ≠ 400 →
       status ≠ 409 →
       HTTPErrorToErrno
         (Some (APIErr {| StatusCode := status; ErrorCode := code;
                          Message := msg |})) = EIO)
  ∧ (∀ msg, HTTPErrorToErrno (Some (OtherErr msg)) = EIO).
Proof.
  repeat split; try done.
  - intros code msg Hne. unfold HTTPErrorToErrno. simpl.
    destruct (String.eqb code "INVALID_PATH"); [done|].
    destruct (String.eqb_spec code "NOT_A_FILE"); [done|].
    by destruct (String.eqb code "WILDCARDS_NOT_ALLOWED").
  - intros status code msg H1 H2 H3 H4 H5. unfold HTTPErrorToErrno. simpl.
    repeat match goal with
           | |- context [?a =? ?b] =>
             destruct (Z.eqb_spec a b); [congruence|]
           end.
    done.
Qed.

Lemma HTTPErrorToErrno_table_witness :
  HTTPErrorToErrno
    (Some (APIErr {| StatusCode := 400; ErrorCode := "";
                     Message := "bad request" |})) = EINVAL
  ∧ HTTPErrorToErrno
      (Some (APIErr {| StatusCode := 500; ErrorCode := "INTERNAL";
                       Message := "boom" |})) = EIO.
Proof.
  destruct HTTPErrorToErrno_table
    as (_ & _ & _ & _ & _ & _ & _ & H400 & _ & Hother & _).
  split.
  - apply H400. discriminate.
  - apply Hother; discriminate.
Defined.

(** A failure never translates to success. *)
Lemma HTTPErrorToErrno_nonzero (err : error) :
  HTTPErrorToErrno (Some err) ≠ 0.
Proof.
  destruct err as [[status code msg]|msg]; unfold HTTPErrorToErrno; simpl;
    repeat match goal with
           | |- context [if ?b then _ else _] => destruct b
           end; done.
Qed.

(** ** Content conversion and Read (fs.go) *)

Section Read_properties.

Context {Other : Type}.
Variable json_Marshal : Other → list byte * option error.

Local Abbreviation contentToBytes := (monkfs.contentToBytes json_Marshal).
Local Abbreviation Read := (monkfs.Read json_Marshal).

Lemma contentToBytes_quoted (inner : string) :
  contentToBytes (AnyString (Go.quote +:+ inner +:+ Go.quote))
  = Go.Ret (Go.bytes_of_string inner).
Proof.
  unfold monkfs.contentToBytes.
  rewrite HasPrefix_append.
  change (Go.quote +:+ inner +:+ Go.quote)
    with (String (ascii_of_nat 34) (inner +:+ Go.quote)) at 1.
  change (String (ascii_of_nat 34) (inner +:+ Go.quote))
    with ((String (ascii_of_nat 34) inner) +:+ Go.quote).
  rewrite HasSuffix_append. simpl andb. cbv iota.
  change (String (ascii_of_nat 34) inner +:+ Go.quote)
    with (Go.quote +:+ inner +:+ Go.quote).
  by rewrite (slice_quoted inner).
Qed.

Lemma contentToBytes_unquoted (s : string) :
  Go.HasPrefix s Go.quote && Go.HasSuffix s Go.quote = false →
  contentToBytes (AnyString s) = Go.Ret (Go.bytes_of_string s).
Proof. intros H. unfold monkfs.contentToBytes. by rewrite H. Qed.

(** What [Read] leaves behind: the cache as it was, the clock at the
    return of the call, one more entry in the call log. *)
Lemma Read_unfold (fh : monkfs.MonkFileHandle) (len_dest off : Z)
      (w : monkfs.World) (t : Z) (resp : RetrieveResponse Other)
      (data : list byte) :
  monkfs.Retrieve (monkfs.apiClient (monkfs.node fh)) (monkfs.clock w)
    (monkfs.path fh)
    {| StartOffset := off; MaxBytes := len_dest |} "content"
  = (t, Ok resp) →
  contentToBytes (Content resp) = Go.Ret data →
  Read fh len_dest off w
  = let w' := {| monkfs.the_cache := monkfs.the_cache w;
                 monkfs.clock := t;
                 monkfs.calls :=
                   monkfs.calls w
                   ++ [monkfs.CallRetrieve (monkfs.path fh)
                         {| StartOffset := off; MaxBytes := len_dest |}
                         "content"] |} in
    if Go.blen data <=? off then Go.Ret ((Some [], 0), w')
    else match Go.bslice_from data off with
         | Go.Ret tail => Go.Ret ((Some tail, 0), w')
         | Go.Panic msg => Go.Panic msg
         end.
Proof.
  intros HR HC.
  unfold monkfs.Read, monkfs.bind, monkfs.remote_Retrieve.
  rewrite HR. cbv beta iota zeta. unfold monkfs.lift. rewrite HC.
  destruct (Go.blen data <=? off); [done|].
  by destruct (Go.bslice_from data off).
Qed.

(** Read as it is written: a Read whose Retrieve succeeds calls Retrieve
    once, with the requested offset, the buffer length and the content
    hint, and returns with status 0 the converted bytes from index [off]
    on. The conversion gives no bytes for nil content, the string between
    the quotes for a string that starts and ends with a double quote (and
    is more than that one character), the string's own bytes for any other
    string, the slice itself for a byte slice, and the bytes of
    [json.Marshal] for anything else. *)
Lemma Read_returns_converted_from_offset :
  (∀ (fh : monkfs.MonkFileHandle) (len_dest off : Z) (w : monkfs.World)
     (t : Z) (resp : RetrieveResponse Other) (data : list byte),
     monkfs.Retrieve (monkfs.apiClient (monkfs.node fh)) (monkfs.clock w)
       (monkfs.path fh)
       {| StartOffset := off; MaxBytes := len_dest |} "content"
     = (t, Ok resp) →
     contentToBytes (Content resp) = Go.Ret data →
     0 <= off →
     Read fh len_dest off w
     = Go.Ret
         ((Some (drop (Z.to_nat off) data), 0),
          {| monkfs.the_cache := monkfs.the_cache w;
             monkfs.clock := t;
             monkfs.calls :=
               monkfs.calls w
               ++ [monkfs.CallRetrieve (monkfs.path fh)
                     {| StartOffset := off; MaxBytes := len_dest |}
                     "content"] |}))
  ∧ contentToBytes AnyNil = Go.Ret []
  ∧ (∀ inner : string,
       contentToBytes (AnyString (Go.quote +:+ inner +:+ Go.quote))
       = Go.Ret (Go.bytes_of_string inner))
  ∧ (∀ s : string,
       Go.HasPrefix s Go.quote && Go.HasSuffix s Go.quote = false →
       contentToBytes (AnyString s) = Go.Ret (Go.bytes_of_string s))
  ∧ (∀ b : list byte, contentToBytes (AnyBytes b) = Go.Ret b)
  ∧ (∀ v : Other, contentToBytes (AnyOther v) = Go.Ret (json_Marshal v).1).
Proof.
  split; [|repeat split].
  - intros fh len_dest off w t resp data HR HC Hoff.
    rewrite (Read_unfold _ _ _ _ _ _ _ HR HC). cbv zeta.
    destruct (Z.leb_spec (Go.blen data) off) as [Hle|Hlt].
    + by rewrite drop_all_bytes.
    + unfold Go.bslice_from.
      destruct (_ && _) eqn:E; [done|].
      exfalso. rewrite andb_false_iff, !Z.leb_gt in E. lia.
  - apply contentToBytes_quoted.
  - apply contentToBytes_unquoted.
  - intros v. unfold monkfs.contentToBytes. by destruct (json_Marshal v).
Qed.

(** C2: when the requested offset is at or past the end of the converted
    content, Read returns the empty byte string with status 0. *)
Theorem Read_at_or_past_end_is_empty
        (fh : monkfs.MonkFileHandle) (len_dest off : Z) (w : monkfs.World)
        (t : Z) (resp : RetrieveResponse Other) (data : list byte) :
  monkfs.Retrieve (monkfs.apiClient (monkfs.node fh)) (monkfs.clock w)
    (monkfs.path fh)
    {| StartOffset := off; MaxBytes := len_dest |} "content"
  = (t, Ok resp) →
  contentToBytes (Content resp) = Go.Ret data →
  Go.blen data <= off →
  Read fh len_dest off w
  = Go.Ret
      ((Some [], OK),
       {| monkfs.the_cache := monkfs.the_cache w;
          monkfs.clock := t;
          monkfs.calls :=
            monkfs.calls w
            ++ [monkfs.CallRetrieve (monkfs.path fh)
                  {| StartOffset := off; MaxBytes := len_dest |}
                  "content"] |}).
Proof.
  intros HR HC Hle. rewrite (Read_unfold _ _ _ _ _ _ _ HR HC). cbv zeta.
  by destruct (Z.leb_spec (Go.blen data) off); [|lia].
Qed.

(** C1 (fails in the code): Read applies the offset twice. It sends [off]
    to Retrieve as the start of the range and then slices the converted
    bytes at [off] again. When the remote returns the requested range, as
    the design document has Retrieve do, the converted bytes are that
    range, and the caller gets it without its first [off] bytes (nothing at
    all when the range has no more than [off] bytes): for [off > 0] and a
    range that is not empty, not the converted bytes but fewer. *)
Theorem Read_applies_offset_twice
        (fh : monkfs.MonkFileHandle) (len_dest off : Z) (w : monkfs.World)
        (t : Z) (resp : RetrieveResponse Other) (file : list byte) :
  let opts := {| StartOffset := off; MaxBytes := len_dest |} in
  0 <= off →
  monkfs.Retrieve (monkfs.apiClient (monkfs.node fh)) (monkfs.clock w)
    (monkfs.path fh) opts "content"
  = (t, Ok resp) →
  Content resp = AnyBytes (requested_range file opts) →
  ∃ w',
    contentToBytes (Content resp) = Go.Ret (requested_range file opts)
    ∧ Read fh len_dest off w
      = Go.Ret ((Some (drop (Z.to_nat off) (requested_range file opts)), OK),
                w')
    ∧ (0 < off → requested_range file opts ≠ [] →
       (length (drop (Z.to_nat off) (requested_range file opts))
        < length (requested_range file opts))%nat).
Proof.
  intros opts Hoff HR HC.
  assert (HC' : contentToBytes (Content resp)
                = Go.Ret (requested_range file opts)) by (by rewrite HC).
  eexists. split; [exact HC'|]. split.
  - rewrite (Read_unfold _ _ _ _ _ _ _ HR HC'). cbv zeta.
    destruct (Z.leb_spec (Go.blen (requested_range file opts)) off)
      as [Hle|Hlt].
    + by rewrite drop_all_bytes.
    + unfold Go.bslice_from.
      destruct (_ && _) eqn:E; [reflexivity|].
      exfalso. rewrite andb_false_iff, !Z.leb_gt in E. lia.
  - intros Hpos Hne. rewrite length_drop.
    destruct (requested_range file opts); [done|]. simpl. lia.
Qed.

(** C4 (the conversion is not total): on the string that is a single
    double quote, both the prefix and the suffix test succeed and the
    slice [v[1:0]] panics. *)
Theorem contentToBytes_lone_quote_panics :
  contentToBytes (AnyString Go.quote)
  = Go.Panic "slice bounds out of range".
Proof. reflexivity. Qed.

End Read_properties.

Lemma Read_returns_converted_from_offset_witness :
  monkfs.Read scenario.marshal (scenario.handle (AnyBytes scenario.abc))
              4096 1 scenario.world0
  = Go.Ret
      ((Some [Byte.x62; Byte.x63], 0),
       {| monkfs.the_cache := cache.NewMetadataCache (30 * scenario.second);
          monkfs.clock := 1;
          monkfs.calls :=
            [monkfs.CallRetrieve "/f"
               {| StartOffset := 1; MaxBytes := 4096 |} "content"] |}).
Proof.
  destruct (Read_returns_converted_from_offset scenario.marshal) as [H _].
  apply (H (scenario.handle (AnyBytes scenario.abc)) 4096 1 scenario.world0
           1 (scenario.reply (AnyBytes scenario.abc)) scenario.abc).
  - reflexivity.
  - reflexivity.
  - lia.
Defined.

(** The file is [abc] and the remote returns the requested range. A read
    of 4096 bytes at offset 1 asks for [bc], the remote returns [bc], and
    the caller gets [c]: the byte [b] of the file is never delivered. *)
Lemma Read_applies_offset_twice_witness :
  ∃ w',
    monkfs.contentToBytes scenario.marshal
      (AnyBytes (requested_range scenario.abc
                   {| StartOffset := 1; MaxBytes := 4096 |}))
    = Go.Ret [Byte.x62; Byte.x63]
    ∧ monkfs.Read scenario.marshal (scenario.ranged_handle scenario.abc)
                  4096 1 scenario.world0
      = Go.Ret ((Some [Byte.x63], OK), w')
    ∧ (length [Byte.x63] < length [Byte.x62; Byte.x63])%nat.
Proof.
  destruct (Read_applies_offset_twice scenario.marshal
              (scenario.ranged_handle scenario.abc) 4096 1 scenario.world0
              1 (scenario.reply
                   (AnyBytes (requested_range scenario.abc
                                {| StartOffset := 1; MaxBytes := 4096 |})))
              scenario.abc)
    as (w' & Hconv & Hrun & Hless).
  - lia.
  - reflexivity.
  - reflexivity.
  - exists w'. split; [exact Hconv|]. split; [exact Hrun|].
    apply Hless; [lia | discriminate].
Defined.

(** At offset 1 over a remote that gives the content [abc] whatever the
    range, Read hands back [bc], not the converted bytes. *)
Lemma Read_not_whole_content :
  ¬ (∀ (fh : monkfs.MonkFileHandle) (len_dest off : Z) (w : monkfs.World)
       (t : Z) (resp : RetrieveResponse unit) (data : list byte),
       monkfs.Retrieve (monkfs.apiClient (monkfs.node fh)) (monkfs.clock w)
         (monkfs.path fh)
         {| StartOffset := off; MaxBytes := len_dest |} "content"
       = (t, Ok resp) →
       monkfs.contentToBytes scenario.marshal (Content resp) = Go.Ret data →
       ∃ w', monkfs.Read scenario.marshal fh len_dest off w
             = Go.Ret ((Some data, 0), w')).
Proof.
  intros H.
  destruct (H (scenario.handle (AnyBytes scenario.abc)) 4096 1
              scenario.world0 1 (scenario.reply (AnyBytes scenario.abc))
              scenario.abc eq_refl eq_refl) as [w' Hw'].
  vm_compute in Hw'. discriminate Hw'.
Qed.

Lemma Read_at_or_past_end_is_empty_witness :
  monkfs.Read scenario.marshal (scenario.handle (AnyBytes scenario.abc))
              4096 3 scenario.world0
  = Go.Ret
      ((Some [], OK),
       {| monkfs.the_cache := cache.NewMetadataCache (30 * scenario.second);
          monkfs.clock := 1;
          monkfs.calls :=
            [monkfs.CallRetrieve "/f"
               {| StartOffset := 3; MaxBytes := 4096 |} "content"] |}).
Proof.
  apply (Read_at_or_past_end_is_empty scenario.marshal
           (scenario.handle (AnyBytes scenario.abc)) 4096 3 scenario.world0
           1 (scenario.reply (AnyBytes scenario.abc)) scenario.abc).
  - reflexivity.
  - reflexivity.
  - unfold Go.blen, scenario.abc. simpl. lia.
Defined.

(** The panic of the conversion leaves Read: the callback does not return. *)
Lemma Read_lone_quote_panics :
  monkfs.Read scenario.marshal (scenario.handle (AnyString Go.quote))
              4096 0 scenario.world0
  = Go.Panic "slice bounds out of range".
Proof. reflexivity. Qed.

(** A negative offset passes the end-of-data test and panics at the slice. *)
Lemma Read_negative_offset_panics :
  monkfs.Read scenario.marshal (scenario.handle (AnyBytes scenario.abc))
              4096 (-1) scenario.world0
  = Go.Panic "slice bounds out of range".
Proof. reflexivity. Qed.

(** ** The metadata cache: Get and Set (cache.go) *)

(** C5: right after [Set(p, v)], [Get(p)] is [v]; [Get(p)] is the stored
    snapshot as long as the entry's age is at most the TTL, and it is
    absent both when there is no entry for [p] and when the entry is older
    than the TTL. *)
Theorem cache_Get_Set (c : cache.MetadataCache) (p : string)
        (v : option StatResponse) (now : Z) :
  (0 <= cache.ttl c → cache.Get (cache.Set_ c now p v) now p = v)
  ∧ (∀ later, Go.time_Since later now <= cache.ttl c →
       cache.Get (cache.Set_ c now p v) later p = v)
  ∧ (∀ later, cache.ttl c < Go.time_Since later now →
       cache.Get (cache.Set_ c now p v) later p = None)
  ∧ (∀ e, cache.entries c !! p = Some e →
       Go.time_Since now (cache.timestamp e) <= cache.ttl c →
       cache.Get c now p = cache.data e)
  ∧ (cache.entries c !! p = None → cache.Get c now p = None)
  ∧ (∀ e, cache.entries c !! p = Some e →
       cache.ttl c < Go.time_Since now (cache.timestamp e) →
       cache.Get c now p = None).
Proof.
  assert (Hset : ∀ later,
             cache.Get (cache.Set_ c now p v) later p
             = if cache.ttl c <? Go.time_Since later now then None else v).
  { intros later. unfold cache.Get, cache.Set_. simpl.
    by rewrite lookup_insert_eq. }
  assert (Hget : ∀ e, cache.entries c !! p = Some e →
             cache.Get c now p
             = if cache.ttl c <? Go.time_Since now (cache.timestamp e)
               then None else cache.data e).
  { intros e He. unfold cache.Get. by rewrite He. }
  repeat split.
  - intros Httl. rewrite Hset.
    assert (Go.time_Since now now = 0) as ->.
    { unfold Go.time_Since, Go.time_Sub. rewrite Z.sub_diag. reflexivity. }
    by destruct (Z.ltb_spec (cache.ttl c) 0); [lia|].
  - intros later H. rewrite Hset.
    by destruct (Z.ltb_spec (cache.ttl c) (Go.time_Since later now)); [lia|].
  - intros later H. rewrite Hset.
    by destruct (Z.ltb_spec (cache.ttl c) (Go.time_Since later now)); [|lia].
  - intros e He H. rewrite (Hget e He).
    by destruct (Z.ltb_spec (cache.ttl c)
                            (Go.time_Since now (cache.timestamp e))); [lia|].
  - intros He. unfold cache.Get. by rewrite He.
  - intros e He H. rewrite (Hget e He).
    by destruct (Z.ltb_spec (cache.ttl c)
                            (Go.time_Since now (cache.timestamp e))); [|lia].
Qed.

Lemma cache_Get_Set_witness :
  let c := cache.NewMetadataCache (30 * scenario.second) in
  let c' := cache.Set_ c 5 "/data/report.txt" (Some scenario.report_stat) in
  cache.Get c' 5 "/data/report.txt" = Some scenario.report_stat
  ∧ cache.Get c' (5 + 30 * scenario.second) "/data/report.txt"
    = Some scenario.report_stat
  ∧ cache.Get c' (6 + 30 * scenario.second) "/data/report.txt" = None
  ∧ cache.Get c 5 "/data/report.txt" = None.
Proof.
  intros c c'.
  destruct (cache_Get_Set c "/data/report.txt" (Some scenario.report_stat) 5)
    as (H0 & Hin & Hout & _ & Hnone & _).
  split; [|split; [|split]].
  - apply H0. vm_compute. discriminate.
  - apply Hin. vm_compute. discriminate.
  - apply Hout. vm_compute. reflexivity.
  - apply Hnone. reflexivity.
Defined.

(** ** Timestamps (fs.go) *)

Section Timestamp_properties.

Variable time_Parse_RFC3339 : string → option Z.

Local Abbreviation parseMonkTimestamp :=
  (monkfs.parseMonkTimestamp time_Parse_RFC3339).


End Timestamp_properties.

(** *** What [time.Parse] accepts, against RFC 3339 *)


















(** ** The node callbacks and the cache (fs.go) *)

Section Resolver_properties.

Context {Other : Type}.
Variable time_Parse_RFC3339 : string → option Z.

Local Abbreviation parseMonkTimestamp :=
  (monkfs.parseMonkTimestamp time_Parse_RFC3339).
Local Abbreviation fillAttr := (monkfs.fillAttr time_Parse_RFC3339).
Local Abbreviation Getattr :=
  (monkfs.Getattr (Other:=Other) time_Parse_RFC3339).
Local Abbreviation Lookup :=
  (monkfs.Lookup (Other:=Other) time_Parse_RFC3339).

(** The world after one remote call that returned at clock reading [t]. *)
Lemma remote_Stat_eq (c : monkfs.Client (Other:=Other)) (p pick : string)
      (w : monkfs.World) (t : Z) (r : result StatResponse) :
  monkfs.Stat c (monkfs.clock w) p pick = (t, r) →
  monkfs.remote_Stat c p pick w
  = Go.Ret (r, {| monkfs.the_cache := monkfs.the_cache w;
                  monkfs.clock := t;
                  monkfs.calls := monkfs.calls w ++ [monkfs.CallStat p pick]
               |}).
Proof. intros H. unfold monkfs.remote_Stat. by rewrite H. Qed.

(** C7: when the cache holds a snapshot for the node's path whose age is at
    most the TTL, Getattr returns 0 with the size, the three timestamps and
    the mode converted from that snapshot, and the world (cache, clock and
    the log of remote calls) is as before: no remote call is issued. *)
Theorem Getattr_cache_hit (n : monkfs.MonkFS) (out : fuse.Attr)
        (w : monkfs.World) (e : cache.CacheEntry) (snap : StatResponse) :
  cache.entries (monkfs.the_cache w) !! monkfs.getPath n = Some e →
  cache.data e = Some snap →
  Go.time_Since (monkfs.clock w) (cache.timestamp e)
  <= cache.ttl (monkfs.the_cache w) →
  Getattr n out w = Go.Ret ((fillAttr out snap, OK), w)
  ∧ (let attr := fillAttr out snap in
     let md := StatResponse_FileMetadata snap in
     fuse.Size attr = Go.uint64 (Size md)
     ∧ fuse.Mtime attr = parseMonkTimestamp (ModifiedTime md)
     ∧ fuse.Ctime attr = parseMonkTimestamp (CreatedTime md)
     ∧ fuse.Atime attr = parseMonkTimestamp (AccessTime md)
     ∧ fuse.Mode attr
       = if String.eqb (StatResponse_Type snap) "directory"
            || String.eqb (FileMetadata_Type md) "directory"
         then Z.lor fuse.S_IFDIR 493 else Z.lor fuse.S_IFREG 420).
Proof.
  intros He Hdata Hage. split; [|by repeat split].
  unfold monkfs.Getattr, monkfs.bind, monkfs.cache_Get, cache.Get.
  rewrite He, Hdata.
  by destruct (Z.ltb_spec (cache.ttl (monkfs.the_cache w))
                 (Go.time_Since (monkfs.clock w) (cache.timestamp e)));
    [lia|].
Qed.

Lemma failure_errno_nonzero (err : error) : failure_errno err ≠ OK.
Proof.
  unfold failure_errno. destruct (IsNotFound err); [done|].
  apply HTTPErrorToErrno_nonzero.
Qed.

(** C8: a failing remote fetch (an API error, not-found included, or a
    transport failure) in Getattr, Lookup or Open returns a non-zero errno
    and leaves the metadata cache exactly as it was: nothing is inserted
    (in particular no negative entry), refreshed or removed. *)
Theorem failed_fetch_leaves_cache (n : monkfs.MonkFS) (w : monkfs.World)
        (t : Z) (err : error) :
  (∀ out,
     cache.Get (monkfs.the_cache w) (monkfs.clock w) (monkfs.getPath n)
     = None →
     monkfs.Stat (monkfs.apiClient n) (monkfs.clock w) (monkfs.getPath n)
                 "file_metadata" = (t, Err err) →
     ∃ w', Getattr n out w = Go.Ret ((out, failure_errno err), w')
           ∧ failure_errno err ≠ OK
           ∧ monkfs.the_cache w' = monkfs.the_cache w)
  ∧ (∀ name out,
       monkfs.Stat (monkfs.apiClient n) (monkfs.clock w)
                   (monkfs.getPath n +:+ "/" +:+ name)
                   "file_metadata" = (t, Err err) →
       ∃ w', Lookup n name out w
             = Go.Ret ((None, out, failure_errno err), w')
             ∧ failure_errno err ≠ OK
             ∧ monkfs.the_cache w' = monkfs.the_cache w)
  ∧ (∀ flags,
       monkfs.Stat (monkfs.apiClient n) (monkfs.clock w) (monkfs.getPath n)
                   "" = (t, Err err) →
       ∃ w', monkfs.Open n flags w
             = Go.Ret ((None, 0, failure_errno err), w')
             ∧ failure_errno err ≠ OK
             ∧ monkfs.the_cache w' = monkfs.the_cache w).
Proof.
  split; [|split].
  - intros out Hmiss Hstat. eexists. split; [|split].
    + unfold monkfs.Getattr, monkfs.bind, monkfs.cache_Get.
      rewrite Hmiss, (remote_Stat_eq _ _ _ _ _ _ Hstat).
      unfold failure_errno. destruct (IsNotFound err); reflexivity.
    + apply failure_errno_nonzero.
    + reflexivity.
  - intros name out Hstat. eexists. split; [|split].
    + unfold monkfs.Lookup, monkfs.bind.
      rewrite (remote_Stat_eq _ _ _ _ _ _ Hstat).
      unfold failure_errno. destruct (IsNotFound err); reflexivity.
    + apply failure_errno_nonzero.
    + reflexivity.
  - intros flags Hstat. eexists. split; [|split].
    + unfold monkfs.Open, monkfs.bind.
      rewrite (remote_Stat_eq _ _ _ _ _ _ Hstat).
      unfold failure_errno. destruct (IsNotFound err); reflexivity.
    + apply failure_errno_nonzero.
    + reflexivity.
Qed.

End Resolver_properties.

Lemma Getattr_cache_hit_witness :
  monkfs.Getattr rfc3339.seconds (scenario.file_node AnyNil) scenario.attr0
                 scenario.warm_world
  = Go.Ret ((monkfs.fillAttr rfc3339.seconds scenario.attr0
                             scenario.report_stat, OK),
            scenario.warm_world).
Proof.
  destruct (Getattr_cache_hit (Other:=unit) rfc3339.seconds
              (scenario.file_node AnyNil) scenario.attr0 scenario.warm_world
              {| cache.data := Some scenario.report_stat;
                 cache.timestamp := 0 |}
              scenario.report_stat) as [H _].
  - apply lookup_insert_eq.
  - reflexivity.
  - vm_compute. discriminate.
  - exact H.
Defined.

(** The end-to-end scenario of the design document: the snapshot of size
    42 modified at 2025-01-01T00:00:00Z converts to a regular file of that
    size and time. *)
Example fillAttr_report :
  let attr := monkfs.fillAttr rfc3339.seconds scenario.attr0
                              scenario.report_stat in
  fuse.Size attr = 42 ∧ fuse.Mtime attr = 1735689600
  ∧ fuse.Ctime attr = 0 ∧ fuse.Atime attr = 0
  ∧ fuse.Mode attr = 33188.
Proof. by vm_compute. Qed.

(** The scenario continued: a first Getattr on [/f] misses, asks the
    remote once and stores the snapshot; a second one right after is served
    from the cache and leaves the world, with its one logged call, as it
    is. *)
Example Getattr_twice_one_remote_call :
  ∃ w1,
    monkfs.Getattr rfc3339.seconds (scenario.file_node AnyNil)
                   scenario.attr0 scenario.world0
    = Go.Ret ((monkfs.fillAttr rfc3339.seconds scenario.attr0
                               scenario.report_stat, OK), w1)
    ∧ monkfs.calls w1 = [monkfs.CallStat "/f" "file_metadata"]
    ∧ monkfs.Getattr rfc3339.seconds (scenario.file_node AnyNil)
                     scenario.attr0 w1
      = Go.Ret ((monkfs.fillAttr rfc3339.seconds scenario.attr0
                                 scenario.report_stat, OK), w1).
Proof. eexists. split; [reflexivity|]. split; reflexivity. Qed.

Lemma failed_fetch_leaves_cache_witness :
  ∃ w', monkfs.Getattr rfc3339.seconds scenario.ghost scenario.attr0
                       scenario.world0
        = Go.Ret ((scenario.attr0, ENOENT), w')
        ∧ monkfs.the_cache w' = monkfs.the_cache scenario.world0.
Proof.
  destruct (failed_fetch_leaves_cache (Other:=unit) rfc3339.seconds
              scenario.ghost scenario.world0 1 scenario.not_found)
    as (HG & _ & _).
  destruct (HG scenario.attr0) as (w' & Hrun & _ & Hcache).
  - reflexivity.
  - reflexivity.
  - exists w'. split; [exact Hrun | exact Hcache].
Defined.

(** ** The cache key of Lookup against the path of the child *)

Section Lookup_key.

Context {Other : Type}.

Lemma append_nonempty_l (a b : string) : a ≠ "" → a +:+ b ≠ "".
Proof. by destruct a. Qed.

(** Below any directory but the root the two agree. *)
Lemma Lookup_key_below_root (n : monkfs.MonkFS (Other:=Other))
      (name : string) :
  monkfs.inode_path n ≠ "" →
  monkfs.getPath n +:+ "/" +:+ name = monkfs.getPath (child_of n name).
Proof.
  intros Hne. unfold monkfs.getPath, child_of, monkfs.child_inode_path.
  simpl. destruct (String.eqb_spec (monkfs.inode_path n) ""); [done|].
  destruct (String.eqb_spec (monkfs.inode_path n +:+ "/" +:+ name) "")
    as [E|_].
  - by apply append_nonempty_l in E.
  - reflexivity.
Qed.

(** Under the root the key has two leading slashes, the path has one. *)
Lemma Lookup_key_under_root (n : monkfs.MonkFS (Other:=Other))
      (name : string) :
  monkfs.inode_path n = "" → name ≠ "" →
  monkfs.getPath n +:+ "/" +:+ name = "//" +:+ name
  ∧ monkfs.getPath (child_of n name) = "/" +:+ name
  ∧ monkfs.getPath n +:+ "/" +:+ name ≠ monkfs.getPath (child_of n name).
Proof.
  intros Hroot Hname.
  unfold monkfs.getPath, child_of, monkfs.child_inode_path. simpl.
  rewrite Hroot. simpl.
  destruct (String.eqb_spec name ""); [done|].
  repeat split.
  intros E. injection E as E.
  apply (f_equal String.length) in E. simpl in E. lia.
Qed.

End Lookup_key.

(** C10 (fails under the root): a Lookup of [foo] on the mount root
    succeeds and stores the snapshot under the key [//foo]; the child's
    path is [/foo], which the cache does not hold, and the child's Getattr
    at the very same clock reading goes to the remote again. *)
Theorem Lookup_under_root_then_Getattr_misses :
  monkfs.Lookup rfc3339.seconds scenario.root "foo" scenario.attr0
                scenario.world0
  = Go.Ret ((Some scenario.foo_inode,
             monkfs.fillAttr rfc3339.seconds scenario.attr0
                             scenario.report_stat,
             OK),
            scenario.after_lookup)
  ∧ dom (cache.entries (monkfs.the_cache scenario.after_lookup))
    = {["//foo"]}
  ∧ monkfs.getPath scenario.foo_child = "/foo"
  ∧ cache.Get (monkfs.the_cache scenario.after_lookup) 1 "/foo" = None
  ∧ ∃ w2,
      monkfs.Getattr rfc3339.seconds scenario.foo_child scenario.attr0
                     scenario.after_lookup
      = Go.Ret ((monkfs.fillAttr rfc3339.seconds scenario.attr0
                                 scenario.report_stat, OK), w2)
      ∧ monkfs.calls w2 = [monkfs.CallStat "//foo" "file_metadata";
                           monkfs.CallStat "/foo" "file_metadata"].
Proof.
  split; [reflexivity|]. split.
  { unfold scenario.after_lookup, cache.Set_. simpl.
    rewrite dom_insert_L, dom_empty_L. set_solver. }
  split; [reflexivity|]. split; [reflexivity|].
  eexists. split; reflexivity.
Qed.

(** ** filepath.Clean and filepath.Dir never grow a path *)

Import filepath.

Lemma length_string_of_list_ascii (l : list ascii) :
  String.length (string_of_list_ascii l) = length l.
Proof. induction l as [|c l IH]; simpl; [done | by rewrite IH]. Qed.

Lemma length_list_ascii_of_string (s : string) :
  length (list_ascii_of_string s) = String.length s.
Proof. induction s as [|c s IH]; simpl; [done | by rewrite IH]. Qed.

Lemma backtrack_length (cur : ascii) (out : list ascii) (dotdot : nat) :
  (length (backtrack cur out dotdot) <= length out)%nat.
Proof.
  revert cur. induction out as [|c out IH]; intros cur; simpl; [lia|].
  destruct (_ && _); simpl; [|lia].
  specialize (IH c). lia.
Qed.

Lemma pop_element_length (out : list ascii) (dotdot : nat) :
  (length (pop_element out dotdot) <= length out)%nat.
Proof.
  destruct out as [|c out]; simpl; [lia|].
  pose proof (backtrack_length c out dotdot). lia.
Qed.

Lemma ends_sep_cons (c : ascii) (rest : list ascii) :
  ends_sep (c :: rest)
  = match rest with
    | [] => if IsPathSeparator c then 1%nat else 0%nat
    | _ :: _ => ends_sep rest
    end.
Proof. unfold ends_sep. by destruct rest. Qed.

Lemma is_dot_not_sep (c : ascii) :
  is_dot c = true → IsPathSeparator c = false.
Proof.
  unfold is_dot, IsPathSeparator. intros H%Ascii.eqb_eq. by subst c.
Qed.

Ltac clean_bound IH rest' out' dotdot' copying' :=
  let H := fresh "Hnext" in
  pose proof (IH rest' out' dotdot' copying' ltac:(simpl in *; lia)) as H;
  clear IH;
  repeat match goal with r : bool |- _ => destruct r end;
  rewrite ?ends_sep_cons in *;
  unfold slack, need_sep, at_end_or_sep in *; simpl in *;
  repeat match goal with
         | E : ?b = _ |- _ => rewrite E in *
         end;
  repeat match goal with
         | |- context [match ?l with [] => _ | _ :: _ => _ end] =>
           is_var l; destruct l
         | _ : context [match ?l with [] => _ | _ :: _ => _ end] |- _ =>
           is_var l; destruct l
         end;
  simpl in *;
  repeat match goal with
         | |- context [if ?b then _ else _] => destruct b eqn:?
         | _ : context [if ?b then _ else _] |- _ => destruct b eqn:?
         end;
  simpl in *;
  rewrite ?negb_true_iff, ?negb_false_iff in *;
  rewrite ?Nat.ltb_lt, ?Nat.ltb_ge, ?Nat.eqb_eq, ?Nat.eqb_neq in *;
  lia.

(** The bytes [Clean] writes are bounded by the bytes it reads. *)
Lemma clean_loop_length (rooted : bool) (n : nat) :
  ∀ (path out : list ascii) (dotdot : nat) (copying : bool),
    (length path <= n)%nat →
    (length (clean_loop rooted path out dotdot copying) + ends_sep path
     <= length out + length path + slack rooted path out copying)%nat.
Proof.
  induction n as [|n IH]; intros path out dotdot copying Hn.
  { destruct path; [|simpl in Hn; lia]. unfold ends_sep. simpl. lia. }
  destruct path as [|c rest]; [unfold ends_sep; simpl; lia|].
  simpl clean_loop.
  destruct copying.
  { destruct (IsPathSeparator c) eqn:Hc.
    - clean_bound IH rest out dotdot false.
    - clean_bound IH rest (c :: out) dotdot true. }
  destruct (IsPathSeparator c) eqn:Hc.
  { clean_bound IH rest out dotdot false. }
  destruct (is_dot c && at_end_or_sep rest) eqn:Hdot.
  { apply andb_true_iff in Hdot as [Hd Hend].
    clean_bound IH rest out dotdot false. }
  destruct rest as [|c1 rest2].
  { clean_bound IH (@nil ascii)
                (c :: (if need_sep rooted out then Separator :: out else out))
                dotdot true. }
  destruct (is_dot c && is_dot c1 && at_end_or_sep rest2) eqn:Hdd.
  2: { clean_bound IH (c1 :: rest2)
                   (c :: (if need_sep rooted out then Separator :: out
                          else out))
                   dotdot true. }
  apply andb_true_iff in Hdd as [Hdd Hend].
  apply andb_true_iff in Hdd as [Hd Hd1].
  apply is_dot_not_sep in Hd1.
  destruct (dotdot <? length out)%nat eqn:Hback.
  { pose proof (pop_element_length out dotdot).
    clean_bound IH rest2 (pop_element out dotdot) dotdot false. }
  destruct rooted; simpl negb; cbv iota.
  { clean_bound IH rest2 out dotdot false. }
  clean_bound IH rest2
    ("."%char :: "."%char
     :: (if (0 <? length out)%nat then Separator :: out else out))
    (S (S (length (if (0 <? length out)%nat then Separator :: out
                   else out))))
    false.
Qed.

Lemma scan_back_spec (r : list ascii) :
  (length (scan_back r) <= length r)%nat
  ∧ (scan_back r = []
     ∨ ∃ c r', scan_back r = c :: r' ∧ IsPathSeparator c = true).
Proof.
  induction r as [|c r [IHlen IH]]; simpl; [split; [lia | by left]|].
  destruct (IsPathSeparator c) eqn:Hc.
  - split; [simpl; lia | right; eauto].
  - split; [lia | exact IH].
Qed.

Lemma ends_sep_snoc (l : list ascii) (c : ascii) :
  IsPathSeparator c = true → ends_sep (l ++ [c]) = 1%nat.
Proof. intros Hc. unfold ends_sep. by rewrite last_snoc, Hc. Qed.

(** [Clean] of a path that ends in a separator is a root marker or is
    shorter than the path. *)
Lemma Clean_shrinks (x : list ascii) :
  ends_sep x = 1%nat →
  cache.at_root (Clean (string_of_list_ascii x)) = true
  ∨ (String.length (Clean (string_of_list_ascii x)) < length x)%nat.
Proof.
  intros Hend. unfold Clean.
  rewrite list_ascii_of_string_of_list_ascii.
  destruct x as [|c rest]; [by left|].
  destruct (IsPathSeparator c) eqn:Hc.
  - destruct rest as [|c1 rest1]; [left; reflexivity|].
    pose proof (clean_loop_length true _ (c1 :: rest1) [Separator] 1 false
                  (Nat.le_refl _)) as Hlen.
    rewrite ends_sep_cons in Hend. rewrite Hend in Hlen.
    assert (slack true (c1 :: rest1) [Separator] false = 0%nat) as Hs.
    { unfold slack, need_sep. simpl. by destruct (IsPathSeparator c1). }
    rewrite Hs in Hlen.
    destruct (clean_loop true (c1 :: rest1) [Separator] 1 false) eqn:Hout;
      [by left|].
    right. rewrite length_string_of_list_ascii, length_rev.
    simpl in *. lia.
  - pose proof (clean_loop_length false _ (c :: rest) [] 0 false
                  (Nat.le_refl _)) as Hlen.
    rewrite Hend in Hlen.
    assert (slack false (c :: rest) [] false = 0%nat) as Hs.
    { unfold slack, need_sep. simpl. by rewrite Hc. }
    rewrite Hs in Hlen.
    destruct (clean_loop false (c :: rest) [] 0 false) eqn:Hout;
      [by left|].
    right. rewrite length_string_of_list_ascii, length_rev.
    simpl in *. lia.
Qed.

(** One step up either reaches a root marker or shortens the path: the
    walk of [Invalidate] ends. *)
Lemma Dir_shrinks (p : string) :
  cache.at_root (Dir p) = true
  ∨ (String.length (Dir p) < String.length p)%nat.
Proof.
  unfold Dir.
  destruct (scan_back_spec (rev (list_ascii_of_string p)))
    as [Hlen [Hnil | (c & r' & Hcut & Hc)]].
  - rewrite Hnil. by left.
  - rewrite Hcut in *. simpl rev.
    destruct (Clean_shrinks (rev r' ++ [c])) as [Hroot | Hlt].
    + by apply ends_sep_snoc.
    + by left.
    + right. rewrite length_app, length_rev in Hlt.
      rewrite length_rev, length_list_ascii_of_string in Hlen.
      simpl in *. lia.
Qed.

(** ** Invalidate: the walk up the path *)

Lemma lookup_delete_all (l : list string) (es : gmap string cache.CacheEntry)
      (q : string) :
  fold_left (λ m a, delete a m) l es !! q
  = if decide (q ∈ l) then None else es !! q.
Proof.
  revert es. induction l as [|a l IH]; intros es.
  - cbn [fold_left]. case_decide as H; [by apply elem_of_nil in H | done].
  - cbn [fold_left]. rewrite IH.
    destruct (decide (q = a)) as [->|Hne].
    + rewrite lookup_delete_eq.
      destruct (decide (a ∈ l)), (decide (a ∈ a :: l)) as [|Hn];
        try done; exfalso; apply Hn, elem_of_cons; by left.
    + rewrite lookup_delete_ne by done.
      destruct (decide (q ∈ l)) as [Hl|Hl],
               (decide (q ∈ a :: l)) as [Hal|Hal];
        try done; exfalso; rewrite elem_of_cons in Hal; tauto.
Qed.

(** With fuel above the length of a path that is not a root marker, the
    loop of [Invalidate] exits, having deleted the ancestors in turn. *)
Lemma Invalidate_parents_eq (fuel : nat) :
  ∀ (es : gmap string cache.CacheEntry) (parent : string),
    cache.at_root parent = true ∨ (String.length parent < fuel)%nat →
    cache.Invalidate_parents fuel es parent
    = Some (fold_left (λ m a, delete a m) (ancestors_from fuel parent) es).
Proof.
  induction fuel as [|fuel IH]; intros es parent Hfuel; simpl.
  - destruct Hfuel as [-> | Hlt]; [done | lia].
  - destruct (cache.at_root parent) eqn:Hroot; [done|].
    destruct Hfuel as [? | Hlt]; [done|].
    simpl. apply IH.
    destruct (Dir_shrinks parent) as [? | ?]; [by left | right; lia].
Qed.

(** The walk, without its bound: [a] is deleted exactly when it is some
    iterate of [Dir] with no root marker up to it. *)
Lemma ancestors_from_iter (fuel : nat) :
  ∀ (parent a : string),
    cache.at_root parent = true ∨ (String.length parent < fuel)%nat →
    a ∈ ancestors_from fuel parent
    ↔ ∃ k, Nat.iter k Dir parent = a
           ∧ ∀ j, (j <= k)%nat →
                  cache.at_root (Nat.iter j Dir parent) = false.
Proof.
  induction fuel as [|fuel IH]; intros parent a Hfuel; simpl.
  - destruct Hfuel as [Hroot | Hlt]; [|lia]. rewrite Hroot. split.
    + by intros ?%elem_of_nil.
    + intros (k & _ & Hk). specialize (Hk 0%nat ltac:(lia)). simpl in Hk.
      congruence.
  - destruct (cache.at_root parent) eqn:Hroot.
    { split; [by intros ?%elem_of_nil|].
      intros (k & _ & Hk). specialize (Hk 0%nat ltac:(lia)). simpl in Hk.
      congruence. }
    destruct Hfuel as [? | Hlt]; [done|].
    assert (Hnext : cache.at_root (Dir parent) = true
                    ∨ (String.length (Dir parent) < fuel)%nat).
    { destruct (Dir_shrinks parent) as [? | ?]; [by left | right; lia]. }
    rewrite elem_of_cons, (IH (Dir parent) a Hnext). split.
    + intros [-> | (k & Hk & Hj)].
      * exists 0%nat. split; [done|]. intros j Hle.
        by replace j with 0%nat by lia.
      * exists (S k). rewrite Nat.iter_succ_r. split; [done|].
        intros [|j] Hle; [done|]. rewrite Nat.iter_succ_r. apply Hj. lia.
    + intros ([|k] & Hk & Hj).
      * by left.
      * right. exists k. rewrite Nat.iter_succ_r in Hk. split; [done|].
        intros j Hle. specialize (Hj (S j) ltac:(lia)).
        by rewrite Nat.iter_succ_r in Hj.
Qed.

Lemma ancestors_fuel (p : string) :
  cache.at_root (Dir p) = true
  ∨ (String.length (Dir p) < S (String.length p))%nat.
Proof. destruct (Dir_shrinks p) as [? | ?]; [by left | right; lia]. Qed.

Lemma ancestors_iter (p a : string) :
  a ∈ ancestors p
  ↔ ∃ k, (1 <= k)%nat ∧ Nat.iter k Dir p = a
         ∧ ∀ j, (1 <= j <= k)%nat →
                cache.at_root (Nat.iter j Dir p) = false.
Proof.
  unfold ancestors. rewrite (ancestors_from_iter _ _ _ (ancestors_fuel p)).
  split.
  - intros (k & Hk & Hj). exists (S k). rewrite Nat.iter_succ_r.
    split; [lia|]. split; [done|].
    intros [|j] Hle; [lia|]. rewrite Nat.iter_succ_r. apply Hj. lia.
  - intros ([|k] & Hle & Hk & Hj); [lia|]. exists k.
    rewrite Nat.iter_succ_r in Hk. split; [done|].
    intros j Hjk. specialize (Hj (S j) ltac:(lia)).
    by rewrite Nat.iter_succ_r in Hj.
Qed.

(** [Invalidate] always returns; it keeps the TTL; an entry is gone
    exactly when its key is the path or one of its ancestors. *)
Lemma Invalidate_eq (c : cache.MetadataCache) (p : string) :
  cache.Invalidate c p
  = Some {| cache.entries :=
              fold_left (λ m a, delete a m) (ancestors p)
                        (delete p (cache.entries c));
            cache.ttl := cache.ttl c |}.
Proof.
  unfold cache.Invalidate.
  by rewrite (Invalidate_parents_eq _ _ _ (ancestors_fuel p)).
Qed.

(** ** Canonical absolute paths: the ancestors are the proper prefixes *)

Lemma list_ascii_of_string_append (a b : string) :
  list_ascii_of_string (a +:+ b)
  = list_ascii_of_string a ++ list_ascii_of_string b.
Proof. induction a as [|c a IH]; simpl; [done | by rewrite IH]. Qed.

Lemma forallb_not_sep (cs : list ascii) :
  forallb (λ c, negb (IsPathSeparator c)) cs = true →
  Forall (λ c, IsPathSeparator c = false) cs.
Proof.
  induction cs as [|c cs IH]; simpl; [by constructor|].
  intros [Hc Hcs]%andb_true_iff. constructor; [|by apply IH].
  by apply negb_true_iff.
Qed.

(** What [is_name] says about the bytes of a name. *)
Lemma is_name_chars (s : string) :
  is_name s = true →
  let cs := list_ascii_of_string s in
  cs ≠ [] ∧ Forall (λ c, IsPathSeparator c = false) cs
  ∧ cs ≠ ["."%char] ∧ cs ≠ ["."%char; "."%char].
Proof.
  unfold is_name. intros H.
  repeat (apply andb_true_iff in H as [H ?]).
  rewrite negb_true_iff in *.
  repeat split.
  - destruct s; [done | discriminate].
  - by apply forallb_not_sep.
  - intros E. apply (f_equal string_of_list_ascii) in E.
    rewrite string_of_list_ascii_of_string in E. by subst s.
  - intros E. apply (f_equal string_of_list_ascii) in E.
    rewrite string_of_list_ascii_of_string in E. by subst s.
Qed.

(** The copy loop moves an element into the buffer and stops at the
    separator after it. *)
Lemma copy_element (rooted : bool) (cs t out : list ascii) (dd : nat) :
  Forall (λ c, IsPathSeparator c = false) cs →
  at_end_or_sep t = true → t ≠ [] →
  clean_loop rooted (cs ++ t) out dd true
  = clean_loop rooted t (rev cs ++ out) dd false.
Proof.
  intros Hcs Ht Hne. revert out.
  induction Hcs as [|c cs Hc Hcs IH]; intros out.
  - destruct t as [|c t]; [done|]. simpl in *. by rewrite Ht.
  - simpl. rewrite Hc, IH. by rewrite <- app_assoc.
Qed.

(** A name in front of a separator is a real path element. *)
Lemma clean_element (rooted : bool) (cs t out : list ascii) (dd : nat) :
  cs ≠ [] → Forall (λ c, IsPathSeparator c = false) cs →
  cs ≠ ["."%char] → cs ≠ ["."%char; "."%char] →
  at_end_or_sep t = true → t ≠ [] →
  clean_loop rooted (cs ++ t) out dd false
  = clean_loop rooted t
      (rev cs ++ (if need_sep rooted out then Separator :: out else out))
      dd false.
Proof.
  intros Hne Hcs Hdot Hdd Ht Htne.
  destruct cs as [|c cs']; [done|].
  inversion Hcs as [|? ? Hc Hcs']; subst.
  assert (Hcopy : ∀ out1,
             clean_loop rooted (cs' ++ t) (c :: out1) dd true
             = clean_loop rooted t (rev (c :: cs') ++ out1) dd false).
  { intros out1. rewrite copy_element by done.
    simpl. by rewrite <- app_assoc. }
  cbn [app clean_loop]. rewrite Hc.
  destruct (is_dot c) eqn:Hd.
  - apply Ascii.eqb_eq in Hd. subst c.
    destruct cs' as [|c1 cs'']; [done|].
    inversion Hcs' as [|? ? Hc1 Hcs'']; subst.
    cbn [app at_end_or_sep]. rewrite Hc1. cbn [andb].
    destruct (is_dot c1) eqn:Hd1.
    + apply Ascii.eqb_eq in Hd1. subst c1.
      destruct cs'' as [|c2 cs3]; [done|].
      inversion Hcs'' as [|? ? Hc2 _]; subst.
      cbn [app at_end_or_sep]. rewrite Hc2. cbn [andb].
      apply Hcopy.
    + cbn [andb]. apply Hcopy.
  - cbn [andb]. revert Hcopy. generalize (cs' ++ t) as rest.
    intros rest Hcopy. destruct rest; apply Hcopy.
Qed.

Lemma join_abs_chars_cons (s : string) (segs : list string) :
  list_ascii_of_string (join_abs (s :: segs))
  = Separator :: list_ascii_of_string s
    ++ list_ascii_of_string (join_abs segs).
Proof.
  change (join_abs (s :: segs)) with (String Separator (s +:+ join_abs segs)).
  simpl. by rewrite list_ascii_of_string_append.
Qed.

Lemma join_abs_chars_snoc (segs : list string) (s : string) :
  list_ascii_of_string (join_abs (segs ++ [s]))
  = list_ascii_of_string (join_abs segs)
    ++ Separator :: list_ascii_of_string s.
Proof.
  induction segs as [|s' segs IH].
  - cbn [app]. rewrite join_abs_chars_cons. simpl. by rewrite app_nil_r.
  - cbn [app]. rewrite !join_abs_chars_cons, IH.
    cbn [app]. by rewrite <- app_assoc.
Qed.

Lemma slashed_starts_with_sep (segs : list string) :
  let t := list_ascii_of_string (join_abs segs) ++ [Separator] in
  at_end_or_sep t = true ∧ t ≠ [].
Proof.
  destruct segs as [|s segs]; [done|].
  rewrite join_abs_chars_cons. done.
Qed.

(** The main loop over [/s1/s2/.../sk/], the buffer holding an element
    already: the names are appended, a separator before each. *)
Lemma clean_names (segs : list string) :
  ∀ (acc : list ascii) (dd : nat),
    Forall (λ s, is_name s = true) segs →
    (2 <= length acc)%nat →
    clean_loop true (list_ascii_of_string (join_abs segs) ++ [Separator])
               acc dd false
    = rev (list_ascii_of_string (join_abs segs)) ++ acc.
Proof.
  induction segs as [|s segs IH]; intros acc dd Hnames Hacc; [done|].
  inversion Hnames as [|? ? Hs Hsegs]; subst.
  destruct (is_name_chars s Hs) as (Hne & Hsep & Hdot & Hdd).
  destruct (slashed_starts_with_sep segs) as [Ht Htne].
  rewrite join_abs_chars_cons. cbn [app clean_loop].
  change (IsPathSeparator Separator) with true. cbv iota.
  rewrite <- app_assoc.
  rewrite clean_element by done.
  assert (need_sep true acc = true) as ->.
  { unfold need_sep. simpl. rewrite orb_false_r.
    apply negb_true_iff, Nat.eqb_neq. lia. }
  rewrite IH; [|done|rewrite length_app; simpl; lia].
  simpl rev. rewrite rev_app_distr, <- !app_assoc. reflexivity.
Qed.

Lemma Clean_slashed (segs : list string) :
  Forall (λ s, is_name s = true) segs →
  Clean (string_of_list_ascii
           (list_ascii_of_string (join_abs segs) ++ [Separator]))
  = abs_path segs.
Proof.
  intros Hnames. destruct segs as [|s segs]; [reflexivity|].
  inversion Hnames as [|? ? Hs Hsegs]; subst.
  destruct (is_name_chars s Hs) as (Hne & Hsep & Hdot & Hdd).
  destruct (slashed_starts_with_sep segs) as [Ht Htne].
  unfold Clean. rewrite list_ascii_of_string_of_list_ascii.
  rewrite join_abs_chars_cons. cbn [app].
  change (IsPathSeparator Separator) with true. cbv iota.
  rewrite <- app_assoc, clean_element by done.
  change (need_sep true [Separator]) with false. cbv iota.
  assert (Hlen : (2 <= length (rev (list_ascii_of_string s) ++ [Separator]))%nat).
  { rewrite length_app, length_rev. simpl.
    destruct (list_ascii_of_string s); [done | simpl; lia]. }
  rewrite clean_names by done.
  assert (Hout :
            rev (list_ascii_of_string (join_abs segs))
            ++ rev (list_ascii_of_string s) ++ [Separator]
            = rev (list_ascii_of_string (join_abs (s :: segs)))).
  { rewrite join_abs_chars_cons. simpl rev.
    by rewrite rev_app_distr, <- app_assoc. }
  rewrite Hout.
  destruct (rev (list_ascii_of_string (join_abs (s :: segs)))) eqn:E.
  - apply (f_equal (@length ascii)) in E.
    rewrite length_rev, join_abs_chars_cons in E. discriminate E.
  - rewrite <- E, rev_involutive.
    apply string_of_list_ascii_of_string.
Qed.

Lemma scan_back_element (l x : list ascii) :
  Forall (λ c, IsPathSeparator c = false) l →
  scan_back (l ++ Separator :: x) = Separator :: x.
Proof.
  induction 1 as [|c l Hc _ IH]; [done|].
  simpl. by rewrite Hc.
Qed.

(** One step up a canonical path drops its last name. *)
Lemma Dir_abs_path (segs : list string) (s : string) :
  Forall (λ s, is_name s = true) (segs ++ [s]) →
  Dir (abs_path (segs ++ [s])) = abs_path segs.
Proof.
  intros [Hsegs Hs]%Forall_app.
  apply Forall_inv in Hs.
  destruct (is_name_chars s Hs) as (Hne & Hsep & Hdot & Hdd).
  unfold Dir.
  assert (abs_path (segs ++ [s]) = join_abs (segs ++ [s])) as ->
    by by destruct segs.
  rewrite join_abs_chars_snoc, rev_app_distr. simpl rev.
  rewrite <- app_assoc. cbn [app].
  rewrite scan_back_element by by apply Forall_rev.
  simpl rev. rewrite rev_involutive.
  by apply Clean_slashed.
Qed.

Lemma abs_path_not_root (segs : list string) (s : string) :
  Forall (λ s, is_name s = true) (segs ++ [s]) →
  cache.at_root (abs_path (segs ++ [s])) = false.
Proof.
  intros Hnames.
  destruct segs as [|s1 segs]; simpl in *.
  - apply Forall_inv in Hnames. destruct s as [|c s]; [done|].
    unfold cache.at_root. simpl. by destruct s.
  - apply Forall_inv in Hnames. destruct s1 as [|c s1]; [done|].
    reflexivity.
Qed.

(** The ancestors of a canonical path, whatever the bound. *)
Lemma ancestors_from_abs_path (segs : list string) :
  Forall (λ s, is_name s = true) segs →
  ∀ (k fuel : nat),
    (k <= length segs)%nat →
    cache.at_root (abs_path (take k segs)) = true
    ∨ (String.length (abs_path (take k segs)) < fuel)%nat →
    ancestors_from fuel (abs_path (take k segs)) = up_chain k segs.
Proof.
  intros Hnames. induction k as [|k IH]; intros fuel Hk Hfuel.
  - rewrite take_0. by destruct fuel.
  - destruct (lookup_lt_is_Some_2 segs k ltac:(lia)) as [s Hs].
    assert (Hnames' : Forall (λ s, is_name s = true) (take k segs ++ [s])).
    { rewrite <- (take_S_r _ _ _ Hs). by apply Forall_take. }
    pose proof (abs_path_not_root _ _ Hnames') as Hroot.
    pose proof (Dir_abs_path _ _ Hnames') as Hdir.
    rewrite <- (take_S_r _ _ _ Hs) in Hroot, Hdir.
    destruct Hfuel as [Hf | Hf]; [congruence|].
    destruct fuel as [|fuel]; [lia|].
    cbn [ancestors_from up_chain]. rewrite Hroot, Hdir.
    f_equal. apply IH; [lia|].
    rewrite <- Hdir.
    destruct (Dir_shrinks (abs_path (take (S k) segs))) as [? | ?];
      [by left | right; lia].
Qed.

Lemma ancestors_abs_path (segs : list string) :
  Forall (λ s, is_name s = true) segs →
  ancestors (abs_path segs) = up_chain (length segs - 1) segs.
Proof.
  intros Hnames.
  destruct (decide (segs = [])) as [-> | Hne]; [reflexivity|].
  destruct (exists_last Hne) as (segs' & s & ->).
  unfold ancestors. rewrite Dir_abs_path by done.
  rewrite length_app. simpl length.
  replace (length segs' + 1 - 1)%nat with (length segs') by lia.
  rewrite <- (take_app_length segs' [s]) at 2.
  assert (Hlen : length segs' = length (take (length segs') (segs' ++ [s]))).
  { rewrite length_take, length_app. simpl. lia. }
  rewrite <- (take_app_length segs' [s]) at 1.
  apply ancestors_from_abs_path; [done | rewrite length_app; lia |].
  rewrite take_app_length, <- (Dir_abs_path segs' s) by done.
  destruct (Dir_shrinks (abs_path (segs' ++ [s]))) as [? | ?];
    [by left | right; lia].
Qed.

(** C6: [Invalidate(p)] returns, and in the cache it leaves the entry of
    [p] and of every ancestor directory of [p] is gone, while the entry of
    every other path is as it was. The ancestors are the iterates of
    [filepath.Dir] on [p] before the first root marker ([/] or [.]), which
    is itself not touched; for a canonical absolute path [/s1/.../sn] they
    are [/s1/.../s(n-1)], ..., [/s1]. *)
Theorem Invalidate_removes_path_and_ancestors
        (c : cache.MetadataCache) (p : string) :
  ∃ c', cache.Invalidate c p = Some c'
        ∧ cache.ttl c' = cache.ttl c
        ∧ (∀ q, q = p ∨ q ∈ ancestors p → cache.entries c' !! q = None)
        ∧ (∀ q, q ≠ p → q ∉ ancestors p →
                cache.entries c' !! q = cache.entries c !! q)
        ∧ (∀ a, a ∈ ancestors p
                ↔ ∃ k, (1 <= k)%nat ∧ Nat.iter k Dir p = a
                       ∧ ∀ j, (1 <= j <= k)%nat →
                              cache.at_root (Nat.iter j Dir p) = false)
        ∧ (∀ segs, Forall (λ s, is_name s = true) segs →
                   p = abs_path segs →
                   ancestors p = up_chain (length segs - 1) segs).
Proof.
  eexists. split; [apply Invalidate_eq|]. cbn [cache.ttl cache.entries].
  split; [reflexivity|]. split; [|split; [|split]].
  - intros q Hq. rewrite lookup_delete_all.
    destruct (decide (q ∈ ancestors p)) as [|Hn]; [done|].
    destruct Hq as [-> | ?]; [apply lookup_delete_eq | done].
  - intros q Hne Hq. rewrite lookup_delete_all.
    rewrite decide_False by done. by apply lookup_delete_ne.
  - apply ancestors_iter.
  - intros segs Hnames ->. by apply ancestors_abs_path.
Qed.

Lemma Invalidate_removes_path_and_ancestors_witness :
  ∃ c', cache.Invalidate scenario.tree_cache "/a/b/c" = Some c'
        ∧ cache.entries c' !! "/a/b/c" = None
        ∧ cache.entries c' !! "/a/b" = None
        ∧ cache.entries c' !! "/a" = None
        ∧ cache.entries c' !! "/a/x" = Some scenario.tree_entry
        ∧ cache.entries c' !! "/" = Some scenario.tree_entry.
Proof.
  destruct (Invalidate_removes_path_and_ancestors
              scenario.tree_cache "/a/b/c")
    as (c' & Hrun & _ & Hgone & Hkept & _ & Hcanon).
  assert (Hanc : ancestors "/a/b/c" = ["/a/b"; "/a"]).
  { apply (Hcanon ["a"; "b"; "c"]); [|reflexivity].
    repeat constructor. }
  exists c'. split; [exact Hrun|].
  split; [apply Hgone; by left|].
  split; [apply Hgone; right; rewrite Hanc, !elem_of_cons; tauto|].
  split; [apply Hgone; right; rewrite Hanc, !elem_of_cons; tauto|].
  split.
  - rewrite Hkept; [reflexivity | discriminate |].
    rewrite Hanc, !elem_of_cons, elem_of_nil.
    intros [? | [? | []]]; discriminate.
  - rewrite Hkept; [reflexivity | discriminate |].
    rewrite Hanc, !elem_of_cons, elem_of_nil.
    intros [? | [? | []]]; discriminate.
Defined.

(** The key a Lookup under the root stores is a path of its own: nothing
    above it is touched by its invalidation. *)
Example ancestors_double_slash : ancestors "//foo" = [].
Proof. reflexivity. Qed.

Example ancestors_relative : ancestors "a/b/c" = ["a/b"; "a"].
Proof. reflexivity. Qed.

(* ===================================================================== *)
(** * Further properties of the packages *)
(* ===================================================================== *)

(** ** The cache as a map with time *)

(** X1: [Set] on one path leaves what [Get] answers for every other path,
    at every clock reading, as it was. *)
Theorem cache_Set_other_path (c : cache.MetadataCache) (now later : Z)
        (p q : string) (v : option StatResponse) :
  q ≠ p →
  cache.Get (cache.Set_ c now p v) later q = cache.Get c later q.
Proof.
  intros Hne. unfold cache.Get, cache.Set_. simpl.
  by rewrite lookup_insert_ne.
Qed.

Lemma cache_Set_other_path_witness :
  cache.Get (cache.Set_ scenario.tree_cache 7 "/a/y" None) 9 "/a/x"
  = cache.Get scenario.tree_cache 9 "/a/x".
Proof. apply cache_Set_other_path. discriminate. Defined.

(** X2: a second [Set] on a path replaces the snapshot and the timestamp
    of the first (the last writer wins and the TTL window restarts): the
    cache is the one the second [Set] alone would give, and [Get] returns
    the second snapshot as long as the age counted from the second [Set]
    is within the TTL, however old the first is. *)
Theorem cache_Set_twice (c : cache.MetadataCache) (t1 t2 later : Z)
        (p : string) (v1 v2 : option StatResponse) :
  cache.Set_ (cache.Set_ c t1 p v1) t2 p v2 = cache.Set_ c t2 p v2
  ∧ (Go.time_Since later t2 <= cache.ttl c →
     cache.Get (cache.Set_ (cache.Set_ c t1 p v1) t2 p v2) later p = v2).
Proof.
  assert (E : cache.Set_ (cache.Set_ c t1 p v1) t2 p v2
              = cache.Set_ c t2 p v2).
  { unfold cache.Set_. simpl. by rewrite insert_insert_eq. }
  split; [exact E|].
  intros Hage. rewrite E. unfold cache.Get, cache.Set_. simpl.
  rewrite lookup_insert_eq. simpl.
  by destruct (Z.ltb_spec (cache.ttl c) (Go.time_Since later t2)); [lia|].
Qed.

Lemma cache_Set_twice_witness :
  let c := cache.NewMetadataCache (30 * time_Second) in
  cache.Get (cache.Set_ (cache.Set_ c 0 "/f" None) (40 * time_Second) "/f"
                        (Some scenario.report_stat))
            (60 * time_Second) "/f"
  = Some scenario.report_stat.
Proof.
  intros c.
  destruct (cache_Set_twice c 0 (40 * time_Second) (60 * time_Second) "/f"
              None (Some scenario.report_stat)) as [_ H].
  apply H. vm_compute. discriminate.
Defined.

(** X3: after [Clear] every path is absent at every clock reading, and the
    cache is the freshly made one with the same TTL. *)
Theorem cache_Clear_empties (c : cache.MetadataCache) (now : Z)
        (p : string) :
  cache.Get (cache.Clear c) now p = None
  ∧ cache.Clear c = cache.NewMetadataCache (cache.ttl c).
Proof.
  split; [|reflexivity].
  unfold cache.Get, cache.Clear. simpl. by rewrite lookup_empty.
Qed.

(** ** Invalidate composed with itself and with Set *)

Lemma MetadataCache_eq (c1 c2 : cache.MetadataCache) :
  cache.ttl c1 = cache.ttl c2 →
  (∀ q, cache.entries c1 !! q = cache.entries c2 !! q) →
  c1 = c2.
Proof.
  destruct c1 as [e1 t1], c2 as [e2 t2]. simpl. intros -> H.
  f_equal. by apply map_eq.
Qed.

Lemma Invalidate_lookup (c : cache.MetadataCache) (p q : string) :
  fold_left (λ m a, delete a m) (ancestors p) (delete p (cache.entries c))
  !! q
  = if decide (q = p ∨ q ∈ ancestors p) then None
    else cache.entries c !! q.
Proof.
  rewrite lookup_delete_all.
  destruct (decide (q ∈ ancestors p)) as [Hin|Hnin].
  - by rewrite decide_True by by right.
  - destruct (decide (q = p)) as [->|Hne].
    + rewrite lookup_delete_eq. by rewrite decide_True by by left.
    + rewrite lookup_delete_ne by done.
      by rewrite decide_False by tauto.
Qed.

(** X4: [Invalidate] is idempotent: invalidating the same path again
    changes nothing. *)
Theorem Invalidate_idempotent (c : cache.MetadataCache) (p : string) :
  ∃ c1, cache.Invalidate c p = Some c1
        ∧ cache.Invalidate c1 p = Some c1.
Proof.
  rewrite Invalidate_eq.
  set (c1 := {| cache.entries := _; cache.ttl := cache.ttl c |}).
  exists c1. split; [done|].
  rewrite Invalidate_eq. f_equal. apply MetadataCache_eq; [done|].
  intros q. cbn [cache.entries]. rewrite (Invalidate_lookup c1 p q).
  unfold c1. cbn [cache.entries]. rewrite !Invalidate_lookup.
  by destruct (decide (q = p ∨ q ∈ ancestors p)).
Qed.

(** X5: [Invalidate] undoes a [Set] on the same path: whatever was just
    stored for [p], invalidating [p] gives the cache that invalidating [p]
    without the [Set] gives. *)
Theorem Invalidate_after_Set (c : cache.MetadataCache) (now : Z)
        (p : string) (v : option StatResponse) :
  cache.Invalidate (cache.Set_ c now p v) p = cache.Invalidate c p.
Proof.
  rewrite !Invalidate_eq. unfold cache.Set_. cbn [cache.entries cache.ttl].
  by rewrite delete_insert_eq.
Qed.

Lemma ancestors_not_root (p a : string) :
  a ∈ ancestors p → cache.at_root a = false.
Proof.
  intros (k & Hk & <- & Hj)%ancestors_iter. apply Hj. lia.
Qed.

(** X6: the walk up stops before the root markers: unless it is the path
    itself, the entry of [/] (and of [.]) survives every [Invalidate]. *)
Theorem Invalidate_keeps_root (c : cache.MetadataCache) (p r : string) :
  cache.at_root r = true → r ≠ p →
  ∃ c1, cache.Invalidate c p = Some c1
        ∧ cache.entries c1 !! r = cache.entries c !! r.
Proof.
  intros Hroot Hne. eexists. split; [apply Invalidate_eq|].
  cbn [cache.entries]. rewrite Invalidate_lookup.
  rewrite decide_False; [done|].
  intros [? | Hin]; [done|].
  apply ancestors_not_root in Hin. congruence.
Qed.

Lemma Invalidate_keeps_root_witness :
  ∃ c1, cache.Invalidate scenario.tree_cache "/a" = Some c1
        ∧ cache.entries c1 !! "/" = Some scenario.tree_entry.
Proof.
  destruct (Invalidate_keeps_root scenario.tree_cache "/a" "/")
    as (c1 & Hrun & Hkeep).
  - reflexivity.
  - discriminate.
  - exists c1. split; [exact Hrun|]. rewrite Hkeep. reflexivity.
Defined.

(** X7: the order of two invalidations does not matter. *)
Theorem Invalidate_commutes (c : cache.MetadataCache) (p q : string) :
  ∃ c1 c2 c12,
    cache.Invalidate c p = Some c1 ∧ cache.Invalidate c1 q = Some c12
    ∧ cache.Invalidate c q = Some c2 ∧ cache.Invalidate c2 p = Some c12.
Proof.
  rewrite (Invalidate_eq c p), (Invalidate_eq c q).
  set (c1 := {| cache.entries := _; cache.ttl := cache.ttl c |}).
  set (c2 := {| cache.entries := _; cache.ttl := cache.ttl c |}).
  exists c1, c2. eexists. split; [done|].
  split; [apply Invalidate_eq|]. split; [done|].
  rewrite Invalidate_eq. f_equal. apply MetadataCache_eq; [done|].
  intros r. cbn [cache.entries].
  rewrite (Invalidate_lookup c2 p r), (Invalidate_lookup c1 q r).
  unfold c1, c2. cbn [cache.entries]. rewrite !Invalidate_lookup.
  destruct (decide (r = p ∨ r ∈ ancestors p)),
           (decide (r = q ∨ r ∈ ancestors q)); done.
Qed.

(** ** Failures of the remote, through every callback *)

Lemma IsNotFound_ENOENT (err : error) :
  IsNotFound err = true → HTTPErrorToErrno (Some err) = ENOENT.
Proof.
  destruct err as [[status code msg]|msg]; simpl; [|done].
  intros ->%Z.eqb_eq. reflexivity.
Qed.

(** X8: the errno of a failure is never 0, is one of the seven codes of the
    table, and for a not-found API error it is ENOENT: the not-found test
    that Getattr, Lookup and Open make before consulting the table agrees
    with the table. *)
Theorem HTTPErrorToErrno_range :
  (∀ e : option error, HTTPErrorToErrno e = 0 ↔ e = None)
  ∧ (∀ e : option error,
       HTTPErrorToErrno e
       ∈ [OK; EPERM; ENOENT; EIO; EACCES; EEXIST; EISDIR; EINVAL])
  ∧ (∀ err : error,
       IsNotFound err = true → HTTPErrorToErrno (Some err) = ENOENT)
  ∧ (∀ err : error, failure_errno err = HTTPErrorToErrno (Some err)).
Proof.
  split; [|split; [|split]].
  - intros [err|]; [|done]. split; [|done].
    intros H. by apply HTTPErrorToErrno_nonzero in H.
  - intros [[[status code msg]|msg]|]; unfold HTTPErrorToErrno; simpl;
      repeat match goal with
             | |- context [if ?b then _ else _] => destruct b
             end;
      unfold OK, EPERM, ENOENT, EIO, EACCES, EEXIST, EISDIR, EINVAL;
      rewrite !elem_of_cons; tauto.
  - exact IsNotFound_ENOENT.
  - intros err. unfold failure_errno.
    destruct (IsNotFound err) eqn:E; [|done].
    symmetry. by apply IsNotFound_ENOENT.
Qed.

Lemma HTTPErrorToErrno_range_witness :
  HTTPErrorToErrno (Some scenario.not_found) = ENOENT.
Proof.
  destruct HTTPErrorToErrno_range as (_ & _ & H & _).
  apply H. reflexivity.
Defined.

(** ** The callbacks against the remote and the cache *)

Section Callback_properties.

Context {Other : Type}.
Variable time_Parse_RFC3339 : string → option Z.

Local Abbreviation fillAttr := (monkfs.fillAttr time_Parse_RFC3339).
Local Abbreviation Getattr :=
  (monkfs.Getattr (Other:=Other) time_Parse_RFC3339).
Local Abbreviation Lookup :=
  (monkfs.Lookup (Other:=Other) time_Parse_RFC3339).

(** X9: Readdir, Lookup and Open always return, after exactly one remote
    call: List with the long format and the entries hint, Stat of the
    parent path, a slash and the name with the metadata hint (whether or
    not that key is cached: Lookup never reads the cache), Stat with no
    hint. Readdir and Open leave the cache as it is, whatever the remote
    answers. *)
Theorem callbacks_one_remote_call (n : monkfs.MonkFS (Other:=Other))
        (w : monkfs.World) :
  (∃ r w1, monkfs.Readdir n w = Go.Ret (r, w1)
           ∧ monkfs.the_cache w1 = monkfs.the_cache w
           ∧ monkfs.calls w1
             = monkfs.calls w
               ++ [monkfs.CallList (monkfs.getPath n)
                     {| ShowHidden := false; LongFormat := true;
                        Recursive_ := false; MaxDepth := 0; SortBy := "";
                        SortOrder := ""; PatternOptimization := false |}
                     "entries"])
  ∧ (∀ name out,
       ∃ r w1, Lookup n name out w = Go.Ret (r, w1)
               ∧ monkfs.calls w1
                 = monkfs.calls w
                   ++ [monkfs.CallStat (monkfs.getPath n +:+ "/" +:+ name)
                                       "file_metadata"])
  ∧ (∀ flags,
       ∃ r w1, monkfs.Open n flags w = Go.Ret (r, w1)
               ∧ monkfs.the_cache w1 = monkfs.the_cache w
               ∧ monkfs.calls w1
                 = monkfs.calls w ++ [monkfs.CallStat (monkfs.getPath n) ""]).
Proof.
  split; [|split].
  - unfold monkfs.Readdir, monkfs.bind, monkfs.remote_List.
    destruct (monkfs.List_ _ _ _ _ _) as [t [resp|err]];
      do 2 eexists; (split; [reflexivity|]); by split.
  - intros name out.
    unfold monkfs.Lookup, monkfs.bind, monkfs.remote_Stat.
    destruct (monkfs.Stat _ _ _ _) as [t [resp|err]].
    + do 2 eexists. split; reflexivity.
    + destruct (IsNotFound err); do 2 eexists; split; reflexivity.
  - intros flags.
    unfold monkfs.Open, monkfs.bind, monkfs.remote_Stat.
    destruct (monkfs.Stat _ _ _ _) as [t [resp|err]].
    + do 2 eexists. split; [reflexivity|]. by split.
    + destruct (IsNotFound err); do 2 eexists;
        (split; [reflexivity|]); by split.
Qed.

(** X10: a successful Readdir gives one directory entry per remote entry,
    in the remote's order and under the remote's names, each with the
    inode number hashed from the entry's own path and with the directory
    mode exactly when the type code is [d]; a failing one gives no
    entries and the errno of the table. *)
Theorem Readdir_entries (n : monkfs.MonkFS (Other:=Other))
        (w : monkfs.World) (t : Z) :
  (∀ resp,
     monkfs.List_ (monkfs.apiClient n) (monkfs.clock w) (monkfs.getPath n)
                  monkfs.list_options "entries" = (t, Ok resp) →
     ∃ entries w1,
       monkfs.Readdir n w = Go.Ret ((Some entries, OK), w1)
       ∧ length entries = length (Entries resp)
       ∧ map fuse.DirEntry_Name entries = map Name (Entries resp)
       ∧ ∀ i e, Entries resp !! i = Some e →
                entries !! i
                = Some {| fuse.DirEntry_Name := Name e;
                          fuse.DirEntry_Mode :=
                            if String.eqb (FileType e) "d"
                            then 16877 else 33188;
                          fuse.DirEntry_Ino := monkfs.hashPath (Path e) |})
  ∧ (∀ err,
       monkfs.List_ (monkfs.apiClient n) (monkfs.clock w) (monkfs.getPath n)
                    monkfs.list_options "entries" = (t, Err err) →
       ∃ w1, monkfs.Readdir n w
             = Go.Ret ((None, HTTPErrorToErrno (Some err)), w1)
             ∧ HTTPErrorToErrno (Some err) ≠ OK).
Proof.
  split.
  - intros resp HL. do 2 eexists. split.
    { unfold monkfs.Readdir, monkfs.bind, monkfs.remote_List.
      rewrite HL. reflexivity. }
    split; [by rewrite length_map|].
    split; [by rewrite map_map|].
    intros i e He. rewrite list_lookup_fmap, He. simpl.
    unfold monkfs.parseFileMode. by destruct (String.eqb (FileType e) "d").
  - intros err HL. eexists. split.
    { unfold monkfs.Readdir, monkfs.bind, monkfs.remote_List.
      rewrite HL. reflexivity. }
    apply HTTPErrorToErrno_nonzero.
Qed.

(** X11: a Getattr that misses and whose Stat succeeds returns the
    converted snapshot, stores it under the node's path and under no other
    key, and every Getattr of that node from then on, while the age
    counted from the return of the Stat is within the TTL, is answered
    from it with no remote call. *)
Theorem Getattr_miss_then_hit (n : monkfs.MonkFS (Other:=Other))
        (out : fuse.Attr) (w : monkfs.World) (t : Z) (resp : StatResponse) :
  cache.Get (monkfs.the_cache w) (monkfs.clock w) (monkfs.getPath n) = None →
  monkfs.Stat (monkfs.apiClient n) (monkfs.clock w) (monkfs.getPath n)
              "file_metadata" = (t, Ok resp) →
  ∃ w1,
    Getattr n out w = Go.Ret ((fillAttr out resp, OK), w1)
    ∧ monkfs.calls w1
      = monkfs.calls w
        ++ [monkfs.CallStat (monkfs.getPath n) "file_metadata"]
    ∧ (∀ q, q ≠ monkfs.getPath n →
            cache.entries (monkfs.the_cache w1) !! q
            = cache.entries (monkfs.the_cache w) !! q)
    ∧ (∀ later out2,
         Go.time_Since later t <= cache.ttl (monkfs.the_cache w) →
         Getattr n out2 (at_time w1 later)
         = Go.Ret ((fillAttr out2 resp, OK), at_time w1 later)).
Proof.
  intros Hmiss Hstat. eexists. split.
  { unfold monkfs.Getattr, monkfs.bind, monkfs.cache_Get.
    rewrite Hmiss, (remote_Stat_eq _ _ _ _ _ _ Hstat). reflexivity. }
  split; [reflexivity|]. split.
  - intros q Hq. simpl. by rewrite lookup_insert_ne.
  - intros later out2 Hage.
    unfold monkfs.Getattr, monkfs.bind, monkfs.cache_Get, cache.Get, at_time.
    simpl. rewrite lookup_insert_eq. simpl.
    by destruct (Z.ltb_spec (cache.ttl (monkfs.the_cache w))
                            (Go.time_Since later t)); [lia|].
Qed.

(** X12: below any directory but the root, a successful Lookup hands back
    the child with the inode number hashed from the looked-up path and, as
    its stable mode, the file-type bits of the snapshot's mode (S_IFDIR for
    a directory, S_IFREG otherwise: the permission bits are not kept in the
    inode), and the child's Getattr is then answered from the cache, with
    no remote call, while the age counted from the return of the Stat is
    within the TTL. *)
Theorem Lookup_then_Getattr_hit (n : monkfs.MonkFS (Other:=Other))
        (name : string) (out : fuse.Attr) (w : monkfs.World) (t : Z)
        (resp : StatResponse) :
  monkfs.inode_path n ≠ "" →
  monkfs.Stat (monkfs.apiClient n) (monkfs.clock w)
              (monkfs.getPath n +:+ "/" +:+ name) "file_metadata"
  = (t, Ok resp) →
  ∃ w1,
    Lookup n name out w
    = Go.Ret ((Some {| monkfs.ops := child_of n name;
                       monkfs.stable :=
                         {| fuse.StableAttr_Mode :=
                              if monkfs.is_directory resp
                              then fuse.S_IFDIR else fuse.S_IFREG;
                            fuse.StableAttr_Ino :=
                              monkfs.hashPath
                                (monkfs.getPath (child_of n name)) |} |},
               fillAttr out resp, OK), w1)
    ∧ ∀ later out2,
        Go.time_Since later t <= cache.ttl (monkfs.the_cache w) →
        Getattr (child_of n name) out2 (at_time w1 later)
        = Go.Ret ((fillAttr out2 resp, OK), at_time w1 later).
Proof.
  intros Hroot Hstat.
  pose proof (Lookup_key_below_root n name Hroot) as Hkey.
  eexists. split.
  { unfold monkfs.Lookup, monkfs.bind.
    rewrite (remote_Stat_eq _ _ _ _ _ _ Hstat).
    unfold monkfs.cache_Set, monkfs.ret, monkfs.NewInode.
    rewrite <- Hkey. unfold monkfs.parseStatMode. simpl.
    by destruct (monkfs.is_directory resp). }
  intros later out2 Hage.
  unfold monkfs.Getattr, monkfs.bind, monkfs.cache_Get, cache.Get, at_time.
  simpl. rewrite <- Hkey, lookup_insert_eq. simpl.
  by destruct (Z.ltb_spec (cache.ttl (monkfs.the_cache w))
                          (Go.time_Since later t)); [lia|].
Qed.

(** X13: there is no stale fallback. When the entry of the node's path is
    older than the TTL and the Stat fails, Getattr returns the errno of the
    failure, not the old snapshot; the old entry stays stored as it is. *)
Theorem Getattr_expired_and_remote_down (n : monkfs.MonkFS (Other:=Other))
        (out : fuse.Attr) (w : monkfs.World) (e : cache.CacheEntry)
        (t : Z) (err : error) :
  cache.entries (monkfs.the_cache w) !! monkfs.getPath n = Some e →
  cache.ttl (monkfs.the_cache w)
  < Go.time_Since (monkfs.clock w) (cache.timestamp e) →
  monkfs.Stat (monkfs.apiClient n) (monkfs.clock w) (monkfs.getPath n)
              "file_metadata" = (t, Err err) →
  ∃ w1,
    Getattr n out w = Go.Ret ((out, HTTPErrorToErrno (Some err)), w1)
    ∧ HTTPErrorToErrno (Some err) ≠ OK
    ∧ cache.entries (monkfs.the_cache w1) !! monkfs.getPath n = Some e.
Proof.
  intros He Hold Hstat. eexists. split; [|split].
  - unfold monkfs.Getattr, monkfs.bind, monkfs.cache_Get, cache.Get.
    rewrite He.
    destruct (Z.ltb_spec (cache.ttl (monkfs.the_cache w))
                (Go.time_Since (monkfs.clock w) (cache.timestamp e)));
      [|lia].
    rewrite (remote_Stat_eq _ _ _ _ _ _ Hstat).
    destruct (IsNotFound err) eqn:E; [|reflexivity].
    by rewrite (IsNotFound_ENOENT err E).
  - apply HTTPErrorToErrno_nonzero.
  - exact He.
Qed.

End Callback_properties.

Lemma Readdir_entries_witness :
  ∃ w1, monkfs.Readdir (cases.data_dir cases.up) scenario.world0
        = Go.Ret ((Some [{| fuse.DirEntry_Name := "issues";
                            fuse.DirEntry_Mode := 16877;
                            fuse.DirEntry_Ino :=
                              monkfs.hashPath "/data/issues" |};
                         {| fuse.DirEntry_Name := "readme";
                            fuse.DirEntry_Mode := 33188;
                            fuse.DirEntry_Ino :=
                              monkfs.hashPath "/data/readme" |}], OK), w1).
Proof.
  destruct (Readdir_entries (cases.data_dir cases.up) scenario.world0 1)
    as [Hok _].
  destruct (Hok cases.listing eq_refl) as (entries & w1 & Hrun & Hlen & _ & Hi).
  exists w1. rewrite Hrun. do 3 f_equal.
  pose proof (Hi 0%nat cases.issues eq_refl) as H0.
  pose proof (Hi 1%nat cases.readme eq_refl) as H1.
  destruct entries as [|e0 [|e1 [|e2 entries]]]; try discriminate Hlen.
  simpl in H0, H1. by injection H0 as ->; injection H1 as ->.
Defined.

Lemma Getattr_miss_then_hit_witness :
  ∃ w1,
    monkfs.Getattr rfc3339.seconds (cases.file_f cases.up) scenario.attr0
                   scenario.world0
    = Go.Ret ((monkfs.fillAttr rfc3339.seconds scenario.attr0
                               scenario.report_stat, OK), w1)
    ∧ monkfs.Getattr rfc3339.seconds (cases.file_f cases.up) scenario.attr0
                     (at_time w1 (1 + 30 * time_Second))
      = Go.Ret ((monkfs.fillAttr rfc3339.seconds scenario.attr0
                                 scenario.report_stat, OK),
                at_time w1 (1 + 30 * time_Second)).
Proof.
  destruct (Getattr_miss_then_hit rfc3339.seconds (cases.file_f cases.up)
              scenario.attr0 scenario.world0 1 scenario.report_stat)
    as (w1 & Hrun & _ & _ & Hhit).
  - reflexivity.
  - reflexivity.
  - exists w1. split; [exact Hrun|].
    apply Hhit. vm_compute. discriminate.
Defined.

Lemma Lookup_then_Getattr_hit_witness :
  ∃ out w1,
    monkfs.Lookup rfc3339.seconds (cases.data_dir cases.up) "readme"
                  scenario.attr0 scenario.world0
    = Go.Ret ((Some {| monkfs.ops :=
                         child_of (cases.data_dir cases.up) "readme";
                       monkfs.stable :=
                         {| fuse.StableAttr_Mode := 32768;
                            fuse.StableAttr_Ino :=
                              monkfs.hashPath "/data/readme" |} |},
               out, OK), w1)
    ∧ monkfs.Getattr rfc3339.seconds
                     (child_of (cases.data_dir cases.up) "readme")
                     scenario.attr0 (at_time w1 (10 * time_Second))
      = Go.Ret ((monkfs.fillAttr rfc3339.seconds scenario.attr0
                                 scenario.report_stat, OK),
                at_time w1 (10 * time_Second)).
Proof.
  destruct (Lookup_then_Getattr_hit rfc3339.seconds
              (cases.data_dir cases.up) "readme" scenario.attr0
              scenario.world0 1 scenario.report_stat)
    as (w1 & Hrun & Hhit).
  - discriminate.
  - reflexivity.
  - eexists. exists w1. split; [exact Hrun|].
    apply Hhit. vm_compute. discriminate.
Defined.

Lemma Getattr_expired_and_remote_down_witness :
  ∃ w1,
    monkfs.Getattr rfc3339.seconds (cases.file_f cases.down) scenario.attr0
                   cases.stale_world
    = Go.Ret ((scenario.attr0, EIO), w1)
    ∧ cache.entries (monkfs.the_cache w1) !! "/f"
      = Some {| cache.data := Some scenario.report_stat;
                cache.timestamp := 0 |}.
Proof.
  destruct (Getattr_expired_and_remote_down rfc3339.seconds
              (cases.file_f cases.down) scenario.attr0 cases.stale_world
              {| cache.data := Some scenario.report_stat;
                 cache.timestamp := 0 |}
              (31 * time_Second + 1) cases.refused)
    as (w1 & Hrun & _ & Hkept).
  - apply lookup_insert_eq.
  - vm_compute. reflexivity.
  - reflexivity.
  - exists w1. split; [exact Hrun | exact Hkept].
Defined.

(** ** Inode numbers *)

Lemma lxor_range (h b : Z) :
  0 <= h < 2 ^ 64 → 0 <= b < 2 ^ 64 → 0 <= Z.lxor h b < 2 ^ 64.
Proof.
  intros Hh Hb.
  assert (Hnn : 0 <= Z.lxor h b) by (apply Z.lxor_nonneg; lia).
  split; [done|].
  destruct (Z.eq_dec (Z.lxor h b) 0) as [->|Hne]; [lia|].
  apply Z.log2_lt_pow2; [lia|].
  pose proof (Z.log2_lxor h b ltac:(lia) ltac:(lia)) as Hlog.
  assert (Hlh : Z.log2 h < 64).
  { destruct (Z.eq_dec h 0) as [->|?]; [done|].
    apply Z.log2_lt_pow2; lia. }
  assert (Hlb : Z.log2 b < 64).
  { destruct (Z.eq_dec b 0) as [->|?]; [done|].
    apply Z.log2_lt_pow2; lia. }
  lia.
Qed.

Lemma mul_prime_inj (u v : Z) :
  0 <= u < 2 ^ 64 → 0 <= v < 2 ^ 64 →
  (u * monkfs.fnv_prime64) mod 2 ^ 64 = (v * monkfs.fnv_prime64) mod 2 ^ 64 →
  u = v.
Proof.
  intros Hu Hv E.
  assert (Hinv : ∀ x, 0 <= x < 2 ^ 64 →
             ((x * monkfs.fnv_prime64) mod 2 ^ 64 * 14886173955864302971)
               mod 2 ^ 64 = x).
  { intros x Hx. rewrite Z.mul_mod_idemp_l by lia.
    rewrite <- Z.mul_assoc, <- Z.mul_mod_idemp_r by lia.
    change ((monkfs.fnv_prime64 * 14886173955864302971) mod 2 ^ 64) with 1.
    rewrite Z.mul_1_r. apply Z.mod_small. lia. }
  rewrite <- (Hinv u Hu), <- (Hinv v Hv). by rewrite E.
Qed.

Lemma byte_range (b : byte) : 0 <= Z.of_N (Byte.to_N b) < 2 ^ 64.
Proof. pose proof (Byte.to_N_bounded b). lia. Qed.

Lemma byte_to_Z_inj (b1 b2 : byte) :
  Z.of_N (Byte.to_N b1) = Z.of_N (Byte.to_N b2) → b1 = b2.
Proof.
  intros E%N2Z.inj.
  pose proof (Byte.of_to_N b1) as H1. rewrite E, Byte.of_to_N in H1.
  congruence.
Qed.

Lemma fnv_fold_range (l : list byte) (h : Z) :
  0 <= h < 2 ^ 64 →
  0 <= fold_left
         (λ h b, (Z.lxor h (Z.of_N (Byte.to_N b)) * monkfs.fnv_prime64)
                   mod 2 ^ 64) l h < 2 ^ 64.
Proof.
  revert h. induction l as [|b l IH]; intros h Hh; simpl; [done|].
  apply IH. apply Z.mod_pos_bound. lia.
Qed.

Lemma fnv_fold_inj (l : list byte) (x y : Z) :
  0 <= x < 2 ^ 64 → 0 <= y < 2 ^ 64 →
  fold_left
    (λ h b, (Z.lxor h (Z.of_N (Byte.to_N b)) * monkfs.fnv_prime64)
              mod 2 ^ 64) l x
  = fold_left
      (λ h b, (Z.lxor h (Z.of_N (Byte.to_N b)) * monkfs.fnv_prime64)
                mod 2 ^ 64) l y →
  x = y.
Proof.
  revert x y. induction l as [|b l IH]; intros x y Hx Hy E; simpl in E;
    [done|].
  apply IH in E; [|apply Z.mod_pos_bound; lia..].
  apply mul_prime_inj in E;
    [|apply lxor_range; [done | apply byte_range]..].
  apply (f_equal (λ z, Z.lxor z (Z.of_N (Byte.to_N b)))) in E.
  by rewrite !Z.lxor_assoc, !Z.lxor_nilpotent, !Z.lxor_0_r in E.
Qed.

Lemma bytes_of_string_append (a b : string) :
  Go.bytes_of_string (a +:+ b)
  = Go.bytes_of_string a ++ Go.bytes_of_string b.
Proof.
  unfold Go.bytes_of_string, String.list_byte_of_string.
  by rewrite list_ascii_of_string_append, map_app.
Qed.

(** X14: an inode number is an unsigned 64-bit value, and two paths that
    differ in exactly one byte never share it: FNV-1a cannot collide on
    them. *)
Theorem hashPath_single_byte (a s : string) (c1 c2 : ascii) :
  0 <= monkfs.hashPath (a +:+ String c1 s) < 2 ^ 64
  ∧ (c1 ≠ c2 →
     monkfs.hashPath (a +:+ String c1 s)
     ≠ monkfs.hashPath (a +:+ String c2 s)).
Proof.
  assert (Hoff : 0 <= monkfs.fnv_offset64 < 2 ^ 64) by (by vm_compute).
  split.
  { unfold monkfs.hashPath. by apply fnv_fold_range. }
  intros Hne E. unfold monkfs.hashPath in E.
  rewrite !bytes_of_string_append in E.
  change (Go.bytes_of_string (String c1 s))
    with (byte_of_ascii c1 :: Go.bytes_of_string s) in E.
  change (Go.bytes_of_string (String c2 s))
    with (byte_of_ascii c2 :: Go.bytes_of_string s) in E.
  rewrite !fold_left_app in E. cbn [fold_left] in E.
  pose proof (fnv_fold_range (Go.bytes_of_string a) _ Hoff) as Hh.
  revert Hh E. generalize (fold_left
      (λ h b, (Z.lxor h (Z.of_N (Byte.to_N b)) * monkfs.fnv_prime64)
                mod 2 ^ 64) (Go.bytes_of_string a) monkfs.fnv_offset64).
  intros h Hh E.
  apply fnv_fold_inj in E; [|apply Z.mod_pos_bound; lia..].
  apply mul_prime_inj in E;
    [|apply lxor_range; [done | apply byte_range]..].
  apply (f_equal (Z.lxor h)) in E.
  rewrite <- !Z.lxor_assoc, !Z.lxor_nilpotent, !Z.lxor_0_l in E.
  apply byte_to_Z_inj in E.
  apply Hne. by rewrite <- (ascii_of_byte_of_ascii c1), E,
                        ascii_of_byte_of_ascii.
Qed.

Lemma hashPath_single_byte_witness :
  monkfs.hashPath "/data/a" ≠ monkfs.hashPath "/data/b".
Proof.
  destruct (hashPath_single_byte "/data/" "" "a" "b") as [_ H].
  apply H. discriminate.
Defined.

(** ** Modes, sizes and paths *)

Section Attribute_properties.

Context {Other : Type}.
Variable time_Parse_RFC3339 : string → option Z.

Local Abbreviation fillAttr := (monkfs.fillAttr time_Parse_RFC3339).

(** X15: every mode the layer hands out is a directory with permission
    bits 0755 or a regular file with 0644, nothing else: a listing entry
    is a directory exactly when its type code is [d], a snapshot exactly
    when its type or its metadata type is [directory]; the remote's
    permission string never matters; and the mode Lookup computes for the
    inode is the mode Getattr reports for the same snapshot. *)
Theorem mode_is_dir_0755_or_file_0644 :
  (∀ permissions fileType,
     let mode := monkfs.parseFileMode permissions fileType in
     Z.land mode S_IFMT
     = (if String.eqb fileType "d" then fuse.S_IFDIR else fuse.S_IFREG)
     ∧ Z.land mode 4095 = (if String.eqb fileType "d" then 493 else 420)
     ∧ mode = monkfs.parseFileMode "" fileType)
  ∧ (∀ stat,
       let mode := monkfs.parseStatMode stat in
       let dir := String.eqb (StatResponse_Type stat) "directory"
                  || String.eqb
                       (FileMetadata_Type (StatResponse_FileMetadata stat))
                       "directory" in
       Z.land mode S_IFMT = (if dir then fuse.S_IFDIR else fuse.S_IFREG)
       ∧ Z.land mode 4095 = (if dir then 493 else 420))
  ∧ (∀ out stat,
       fuse.Mode (fillAttr out stat) = monkfs.parseStatMode stat).
Proof.
  split; [|split].
  - intros permissions fileType. unfold monkfs.parseFileMode.
    by destruct (String.eqb fileType "d").
  - intros stat. unfold monkfs.parseStatMode, monkfs.is_directory.
    by destruct (_ || _).
  - reflexivity.
Qed.

(** X16: the size attribute is the remote's size when that is not
    negative; a negative size shows as that size plus 2^64. *)
Theorem fillAttr_size (out : fuse.Attr) (stat : StatResponse) :
  let size := Size (StatResponse_FileMetadata stat) in
  (0 <= size < 2 ^ 63 → fuse.Size (fillAttr out stat) = size)
  ∧ (- 2 ^ 63 <= size < 0 → fuse.Size (fillAttr out stat) = size + 2 ^ 64).
Proof.
  simpl. unfold Go.uint64. split; intros H.
  - apply Z.mod_small. lia.
  - symmetry. apply (Z.mod_unique_pos _ _ (-1)); lia.
Qed.

End Attribute_properties.

Lemma fillAttr_size_witness :
  fuse.Size (monkfs.fillAttr rfc3339.seconds scenario.attr0
                             scenario.report_stat) = 42.
Proof.
  destruct (fillAttr_size rfc3339.seconds scenario.attr0 scenario.report_stat)
    as [H _].
  apply H. simpl. lia.
Defined.

(** X17: the path of a node is absolute, and two nodes have the same path,
    hence the same cache key, exactly when they are the same place in the
    tree. *)
Theorem getPath_absolute_injective {Other : Type}
        (n1 n2 : monkfs.MonkFS (Other:=Other)) :
  (∃ rest, monkfs.getPath n1 = "/" +:+ rest)
  ∧ (monkfs.getPath n1 = monkfs.getPath n2
     ↔ monkfs.inode_path n1 = monkfs.inode_path n2).
Proof.
  unfold monkfs.getPath. split.
  - destruct (String.eqb (monkfs.inode_path n1) ""); [by exists ""|].
    by eexists.
  - destruct (String.eqb_spec (monkfs.inode_path n1) "") as [E1|E1],
             (String.eqb_spec (monkfs.inode_path n2) "") as [E2|E2].
    + by rewrite E1, E2.
    + rewrite E1. split; [|done].
      intros E. injection E as E. by destruct (monkfs.inode_path n2).
    + rewrite E2. split; [|done].
      intros E. injection E as E. by destruct (monkfs.inode_path n1).
    + split; [by intros E; injection E | by intros ->].
Qed.

(** ** Where Read can panic, and how much it returns *)

Section Read_outcomes.

Context {Other : Type}.
Variable json_Marshal : Other → list byte * option error.

Local Abbreviation contentToBytes := (monkfs.contentToBytes json_Marshal).
Local Abbreviation Read := (monkfs.Read json_Marshal).

Lemma HasPrefix_one_char (v : string) :
  Go.HasPrefix v Go.quote = true → (String.length v < 2)%nat →
  v = Go.quote.
Proof.
  destruct v as [|c [|c' v]]; simpl; [done| |lia].
  unfold Go.HasPrefix. simpl. intros H _.
  destruct (Ascii.eqb_spec c (ascii_of_nat 34)) as [E|E];
    [by rewrite E | discriminate H].
Qed.

Lemma contentToBytes_panics_iff (content : any Other) :
  (∃ msg, contentToBytes content = Go.Panic msg)
  ↔ content = AnyString Go.quote.
Proof.
  split; [|intros ->; by eexists].
  intros [msg H]. destruct content as [|v|b|v]; simpl in H; try done.
  - destruct (Go.HasPrefix v Go.quote) eqn:Hp; simpl in H; [|done].
    destruct (Go.HasSuffix v Go.quote) eqn:Hs; simpl in H; [|done].
    unfold Go.slice, Go.len in H.
    destruct (_ && _) eqn:Hb; [done|].
    f_equal. apply HasPrefix_one_char; [done|].
    rewrite !andb_false_iff, !Z.leb_gt in Hb. lia.
  - by destruct (json_Marshal v).
Qed.

(** X18: the conversion panics on exactly one content, the string that is a
    single double quote; and Read panics exactly when its Retrieve
    succeeded and either the content is that string or the offset is
    negative. A failing Retrieve never panics. *)
Theorem Read_panics_exactly (fh : monkfs.MonkFileHandle) (len_dest off : Z)
        (w : monkfs.World) :
  (∀ content : any Other,
     (∃ msg, contentToBytes content = Go.Panic msg)
     ↔ content = AnyString Go.quote)
  ∧ ((∃ msg, Read fh len_dest off w = Go.Panic msg)
     ↔ ∃ t resp,
         monkfs.Retrieve (monkfs.apiClient (monkfs.node fh)) (monkfs.clock w)
           (monkfs.path fh)
           {| StartOffset := off; MaxBytes := len_dest |} "content"
         = (t, Ok resp)
         ∧ (Content resp = AnyString Go.quote ∨ off < 0)).
Proof.
  split; [exact contentToBytes_panics_iff|].
  destruct (monkfs.Retrieve (monkfs.apiClient (monkfs.node fh))
              (monkfs.clock w) (monkfs.path fh)
              {| StartOffset := off; MaxBytes := len_dest |} "content")
    as [t [resp|err]] eqn:HR.
  2: { split.
       - intros [msg H].
         unfold monkfs.Read, monkfs.bind, monkfs.remote_Retrieve in H.
         by rewrite HR in H.
       - by intros (t' & resp & ? & _). }
  destruct (contentToBytes (Content resp)) as [data|msg0] eqn:HC.
  - rewrite (Read_unfold _ _ _ _ _ _ _ _ HR HC). cbv zeta. split.
    + intros [msg H]. exists t, resp. split; [done|]. right.
      destruct (Z.leb_spec (Go.blen data) off); [done|].
      unfold Go.bslice_from in H.
      destruct (_ && _) eqn:Hb; [done|].
      rewrite andb_false_iff, !Z.leb_gt in Hb. lia.
    + intros (t' & resp' & E & Hor). injection E as <- <-.
      destruct Hor as [Hq | Hneg].
      * assert (∃ msg, contentToBytes (Content resp) = Go.Panic msg)
          as [? Hp] by by apply contentToBytes_panics_iff.
        congruence.
      * unfold Go.blen.
        destruct (Z.leb_spec (Z.of_nat (length data)) off); [lia|].
        unfold Go.bslice_from.
        destruct (Z.leb_spec 0 off); [lia|]. by eexists.
  - split.
    + intros _. exists t, resp. split; [done|]. left.
      apply contentToBytes_panics_iff. by eexists.
    + intros _. exists msg0.
      unfold monkfs.Read, monkfs.bind, monkfs.remote_Retrieve.
      rewrite HR. cbv beta iota zeta. unfold monkfs.lift. by rewrite HC.
Qed.

(** X19: a Read that returns data returns all the converted bytes from the
    offset on, whatever the length of the caller's buffer: it never cuts
    the result down to [len(dest)], and it leaves the cache alone. *)
Theorem Read_length_ignores_buffer
        (fh : monkfs.MonkFileHandle) (len_dest off : Z) (w : monkfs.World)
        (t : Z) (resp : RetrieveResponse Other) (data : list byte) :
  monkfs.Retrieve (monkfs.apiClient (monkfs.node fh)) (monkfs.clock w)
    (monkfs.path fh)
    {| StartOffset := off; MaxBytes := len_dest |} "content"
  = (t, Ok resp) →
  contentToBytes (Content resp) = Go.Ret data →
  0 <= off →
  ∃ bytes w1,
    Read fh len_dest off w = Go.Ret ((Some bytes, OK), w1)
    ∧ Go.blen bytes = Z.max 0 (Go.blen data - off)
    ∧ monkfs.the_cache w1 = monkfs.the_cache w.
Proof.
  intros HR HC Hoff. rewrite (Read_unfold _ _ _ _ _ _ _ _ HR HC). cbv zeta.
  destruct (Z.leb_spec (Go.blen data) off) as [Hle|Hlt].
  - do 2 eexists. split; [reflexivity|]. split; [|reflexivity].
    unfold Go.blen in *. simpl. lia.
  - unfold Go.bslice_from.
    destruct (_ && _) eqn:Hb.
    + do 2 eexists. split; [reflexivity|]. split; [|reflexivity].
      unfold Go.blen in *. rewrite length_drop. lia.
    + rewrite andb_false_iff, !Z.leb_gt in Hb. lia.
Qed.

End Read_outcomes.

Lemma Read_length_ignores_buffer_witness :
  ∃ bytes w1,
    monkfs.Read scenario.marshal (scenario.handle (AnyBytes scenario.abc))
                1 0 scenario.world0
    = Go.Ret ((Some bytes, OK), w1)
    ∧ Go.blen bytes = 3.
Proof.
  destruct (Read_length_ignores_buffer scenario.marshal
              (scenario.handle (AnyBytes scenario.abc)) 1 0 scenario.world0
              1 (scenario.reply (AnyBytes scenario.abc)) scenario.abc)
    as (bytes & w1 & Hrun & Hlen & _).
  - reflexivity.
  - reflexivity.
  - lia.
  - exists bytes, w1. split; [exact Hrun | exact Hlen].
Defined.

(** ** A fresh mount *)

(** X20: right after [NewMonkFS] nothing is cached: the first Getattr of
    any node asks the remote, once; and when the root's own Stat succeeds,
    the root's attributes are served from the cache, with no further call,
    for as long as 30 seconds after the Stat returned. *)
Theorem fresh_mount_then_30_seconds {Other : Type}
        (time_Parse_RFC3339 : string → option Z)
        (apiClient : monkfs.Client (Other:=Other)) (now : Z) :
  let root := (NewMonkFS apiClient now).1 in
  let w := (NewMonkFS apiClient now).2 in
  monkfs.getPath root = "/"
  ∧ (∀ (n : monkfs.MonkFS (Other:=Other)) out,
       ∃ r w1, monkfs.Getattr time_Parse_RFC3339 n out w = Go.Ret (r, w1)
               ∧ monkfs.calls w1
                 = [monkfs.CallStat (monkfs.getPath n) "file_metadata"])
  ∧ (∀ out t resp,
       monkfs.Stat apiClient now "/" "file_metadata" = (t, Ok resp) →
       ∃ w1,
         monkfs.Getattr time_Parse_RFC3339 root out w
         = Go.Ret ((monkfs.fillAttr time_Parse_RFC3339 out resp, OK), w1)
         ∧ ∀ later out2,
             Go.time_Since later t <= 30 * time_Second →
             monkfs.Getattr time_Parse_RFC3339 root out2 (at_time w1 later)
             = Go.Ret ((monkfs.fillAttr time_Parse_RFC3339 out2 resp, OK),
                       at_time w1 later)).
Proof.
  intros root w.
  assert (Hroot : monkfs.getPath root = "/") by reflexivity.
  split; [exact Hroot|]. split.
  - intros n out.
    unfold monkfs.Getattr, monkfs.bind, monkfs.cache_Get, cache.Get.
    simpl. rewrite lookup_empty. unfold monkfs.remote_Stat. simpl.
    destruct (monkfs.Stat _ _ _ _) as [t [resp|err]].
    + do 2 eexists. split; reflexivity.
    + destruct (IsNotFound err); do 2 eexists; split; reflexivity.
  - intros out t resp Hstat. eexists. split.
    { unfold monkfs.Getattr. rewrite Hroot.
      unfold monkfs.bind, monkfs.cache_Get, cache.Get.
      simpl. rewrite lookup_empty. unfold monkfs.remote_Stat. simpl.
      rewrite Hstat. reflexivity. }
    intros later out2 Hage.
    unfold monkfs.Getattr. rewrite Hroot.
    unfold monkfs.bind, monkfs.cache_Get, cache.Get, at_time.
    simpl. rewrite lookup_insert_eq. simpl.
    by destruct (Z.ltb_spec (30 * time_Second) (Go.time_Since later t));
      [lia|].
Qed.

Lemma fresh_mount_then_30_seconds_witness :
  ∃ w1,
    monkfs.Getattr rfc3339.seconds (NewMonkFS cases.up 0).1 scenario.attr0
                   (NewMonkFS cases.up 0).2
    = Go.Ret ((monkfs.fillAttr rfc3339.seconds scenario.attr0
                               scenario.report_stat, OK), w1)
    ∧ monkfs.Getattr rfc3339.seconds (NewMonkFS cases.up 0).1 scenario.attr0
                     (at_time w1 (1 + 30 * time_Second))
      = Go.Ret ((monkfs.fillAttr rfc3339.seconds scenario.attr0
                                 scenario.report_stat, OK),
                at_time w1 (1 + 30 * time_Second)).
Proof.
  destruct (fresh_mount_then_30_seconds rfc3339.seconds cases.up 0)
    as (_ & _ & H).
  destruct (H scenario.attr0 1 scenario.report_stat eq_refl) as (w1 & Hrun & Hhit).
  exists w1. split; [exact Hrun|].
  apply Hhit. vm_compute. discriminate.
Defined.

(** ** The HTTP client (client.go) *)

Section Client_properties.

Context {Other : Type}.
Variable json_Marshal : monkclient.RequestBody (Other:=Other)
                        → option (list byte).
Variable url_parses : string → bool.
Variable QueryEscape : string → string.
Variable Do : Z → http.Request → Z * option http.Response.
Variable Unmarshal_ErrorResponse
  : list byte → option monkclient.ErrorResponse.
Variable Unmarshal_APIWrapper : list byte → option monkclient.APIWrapper.
Variable Unmarshal_ListResponse : list byte → option ListResponse.
Variable Unmarshal_StatResponse : list byte → option StatResponse.
Variable Unmarshal_RetrieveResponse
  : list byte → option (RetrieveResponse Other).
Variable Unmarshal_StoreResponse
  : list byte → option monkclient.StoreResponse.
Variable time_Parse_RFC3339 : string → option Z.

Local Abbreviation post :=
  (monkclient.post json_Marshal url_parses Do Unmarshal_ErrorResponse).
Local Abbreviation unwrap := (monkclient.unwrap Unmarshal_APIWrapper).
Local Abbreviation as_apiClient :=
  (monkclient.as_apiClient json_Marshal url_parses QueryEscape Do
     Unmarshal_ErrorResponse Unmarshal_APIWrapper Unmarshal_ListResponse
     Unmarshal_StatResponse Unmarshal_RetrieveResponse).
Local Abbreviation Getattr :=
  (monkfs.Getattr (Other:=Other) time_Parse_RFC3339).

Lemma post_by_status (c : monkclient.Client) (now : Z) (endpoint : string)
      (body : monkclient.RequestBody) :
  by_status Do now (post c now endpoint body).1 (post c now endpoint body).2.
Proof.
  unfold monkclient.post.
  destruct (json_Marshal body) as [jsonData|]; [|done].
  destruct (monkclient.new_request _ _ _ _) as [req|]; [|done].
  destruct (Do now req) as [t [resp|]] eqn:HDo; [|done].
  destruct (http.ReadAll resp) as [respBody|]; [|done].
  destruct (Z.eqb_spec (http.StatusCode resp) http.StatusOK) as [E|E];
    simpl.
  - by exists req, resp.
  - destruct (Unmarshal_ErrorResponse respBody); [|done].
    simpl. by exists req, resp.
Qed.

Lemma unwrap_by_status {A : Type} (unmarshal : list byte → option A)
      (what : string) (now : Z) (r : Z * result (list byte)) :
  by_status Do now r.1 r.2 →
  by_status Do now (unwrap unmarshal what r).1 (unwrap unmarshal what r).2.
Proof.
  destruct r as [t [respBody|err]]; simpl; [|done].
  intros H. destruct (Unmarshal_APIWrapper respBody) as [wrapper|]; [|done].
  by destruct (unmarshal (monkclient.Data wrapper)).
Qed.

(** X21: each of the four operations succeeds only on an HTTP response
    with status 200, and fails with an API error only on a response with
    another status, which is then the status code of the error: so a
    failure is not-found exactly when it is an API error from a 404. *)
Theorem client_results_by_status (c : monkclient.Client) (now : Z)
        (path pick : string) (lopts : ListOptions) (ropts : RetrieveOptions)
        (content : any Other) (sopts : monkclient.StoreOptions) :
  let List_ :=
    monkclient.List_ json_Marshal url_parses QueryEscape Do
      Unmarshal_ErrorResponse Unmarshal_APIWrapper Unmarshal_ListResponse
      c now path lopts pick in
  let Stat :=
    monkclient.Stat json_Marshal url_parses QueryEscape Do
      Unmarshal_ErrorResponse Unmarshal_APIWrapper Unmarshal_StatResponse
      c now path pick in
  let Retrieve :=
    monkclient.Retrieve json_Marshal url_parses QueryEscape Do
      Unmarshal_ErrorResponse Unmarshal_APIWrapper
      Unmarshal_RetrieveResponse c now path ropts pick in
  let Store :=
    monkclient.Store json_Marshal url_parses QueryEscape Do
      Unmarshal_ErrorResponse Unmarshal_APIWrapper Unmarshal_StoreResponse
      c now path content sopts pick in
  by_status Do now List_.1 List_.2
  ∧ by_status Do now Stat.1 Stat.2
  ∧ by_status Do now Retrieve.1 Retrieve.2
  ∧ by_status Do now Store.1 Store.2.
Proof.
  repeat split; apply unwrap_by_status, post_by_status.
Qed.

(** The Stat of a node's path, up to the HTTP response. *)
Lemma Stat_of_response (c : monkclient.Client) (now : Z) (p : string)
      (data : list byte) (req : http.Request) (t : Z)
      (resp : http.Response) :
  json_Marshal (monkclient.StatBody p) = Some data →
  monkclient.new_request url_parses c
    (monkclient.with_pick QueryEscape "/api/file/stat" "file_metadata") data
  = Some req →
  Do now req = (t, Some resp) →
  monkclient.Stat json_Marshal url_parses QueryEscape Do
    Unmarshal_ErrorResponse Unmarshal_APIWrapper Unmarshal_StatResponse
    c now p "file_metadata"
  = unwrap Unmarshal_StatResponse "unmarshal stat response"
      match http.ReadAll resp with
      | None => (t, Err (OtherErr "read response"))
      | Some respBody =>
        if negb (http.StatusCode resp =? http.StatusOK) then
          match Unmarshal_ErrorResponse respBody with
          | Some errResp =>
            (t, Err (APIErr {| StatusCode := http.StatusCode resp;
                               ErrorCode := monkclient.ErrorCode errResp;
                               Message := monkclient.Error errResp |}))
          | None => (t, Err (OtherErr "http"))
          end
        else (t, Ok respBody)
      end.
Proof.
  intros HM HR HD. unfold monkclient.Stat, monkclient.post.
  by rewrite HM, HR, HD.
Qed.

(** X22: through the client, the errno of a Getattr that misses the cache
    follows the HTTP response: a status other than 200 with a body that
    reads as a JSON error gives the table's errno for that status and
    that error code; with a body that does not read as JSON it gives EIO
    whatever the status, 404 included. *)
Theorem Getattr_errno_by_http_status
        (c : monkclient.Client) (n : monkfs.MonkFS) (out : fuse.Attr)
        (w : monkfs.World) (data : list byte) (req : http.Request) (t : Z)
        (status : Z) (body : list byte) :
  monkfs.apiClient n = as_apiClient c →
  cache.Get (monkfs.the_cache w) (monkfs.clock w) (monkfs.getPath n) = None →
  json_Marshal (monkclient.StatBody (monkfs.getPath n)) = Some data →
  monkclient.new_request url_parses c
    (monkclient.with_pick QueryEscape "/api/file/stat" "file_metadata") data
  = Some req →
  Do (monkfs.clock w) req
  = (t, Some {| http.StatusCode := status; http.ReadAll := Some body |}) →
  status ≠ http.StatusOK →
  ∃ w1,
    Getattr n out w
    = Go.Ret
        ((out,
          match Unmarshal_ErrorResponse body with
          | Some errResp =>
            HTTPErrorToErrno
              (Some (APIErr {| StatusCode := status;
                               ErrorCode := monkclient.ErrorCode errResp;
                               Message := monkclient.Error errResp |}))
          | None => EIO
          end), w1)
    ∧ monkfs.the_cache w1 = monkfs.the_cache w.
Proof.
  intros Hc Hmiss HM HR HD Hst.
  pose proof (Stat_of_response c _ _ _ _ _ _ HM HR HD) as HS.
  cbn [http.ReadAll http.StatusCode] in HS.
  destruct (Z.eqb_spec status http.StatusOK) as [?|_]; [done|].
  cbn [negb] in HS.
  assert (Hrun : ∀ errno,
             errno = match Unmarshal_ErrorResponse body with
                     | Some errResp =>
                       HTTPErrorToErrno
                         (Some (APIErr
                                  {| StatusCode := status;
                                     ErrorCode := monkclient.ErrorCode errResp;
                                     Message := monkclient.Error errResp |}))
                     | None => EIO
                     end →
             Getattr n out w
             = Go.Ret ((out, errno),
                       {| monkfs.the_cache := monkfs.the_cache w;
                          monkfs.clock := t;
                          monkfs.calls :=
                            monkfs.calls w
                            ++ [monkfs.CallStat (monkfs.getPath n)
                                                "file_metadata"] |})).
  { intros errno ->.
    unfold monkfs.Getattr, monkfs.bind, monkfs.cache_Get.
    rewrite Hmiss. unfold monkfs.remote_Stat. rewrite Hc.
    cbn [monkfs.Stat monkclient.as_apiClient]. rewrite HS.
    destruct (Unmarshal_ErrorResponse body) as [errResp|];
      unfold monkclient.unwrap; cbv beta iota.
    - set (e := APIErr _).
      destruct (IsNotFound e) eqn:E; [|reflexivity].
      by rewrite (IsNotFound_ENOENT _ E).
    - reflexivity. }
  eexists. split; [by apply Hrun | reflexivity].
Qed.

(** X23: the client never looks at a success flag. On status 200, once
    the envelope and the payload unmarshal, the Getattr that misses the
    cache returns 0 with the payload's attributes, also when the envelope
    and the payload both say that the call did not succeed. *)
Theorem Getattr_ignores_success_flags
        (c : monkclient.Client) (n : monkfs.MonkFS) (out : fuse.Attr)
        (w : monkfs.World) (data : list byte) (req : http.Request) (t : Z)
        (body : list byte) (wrapper : monkclient.APIWrapper)
        (payload : StatResponse) :
  monkfs.apiClient n = as_apiClient c →
  cache.Get (monkfs.the_cache w) (monkfs.clock w) (monkfs.getPath n) = None →
  json_Marshal (monkclient.StatBody (monkfs.getPath n)) = Some data →
  monkclient.new_request url_parses c
    (monkclient.with_pick QueryEscape "/api/file/stat" "file_metadata") data
  = Some req →
  Do (monkfs.clock w) req
  = (t, Some {| http.StatusCode := http.StatusOK;
                http.ReadAll := Some body |}) →
  Unmarshal_APIWrapper body = Some wrapper →
  Unmarshal_StatResponse (monkclient.Data wrapper) = Some payload →
  ∃ w1,
    Getattr n out w
    = Go.Ret ((monkfs.fillAttr time_Parse_RFC3339 out payload, OK), w1).
Proof.
  intros Hc Hmiss HM HR HD HW HP.
  pose proof (Stat_of_response c _ _ _ _ _ _ HM HR HD) as HS.
  cbn [http.ReadAll http.StatusCode] in HS.
  change (negb (http.StatusOK =? http.StatusOK)) with false in HS.
  cbv iota in HS. unfold monkclient.unwrap in HS. rewrite HW, HP in HS.
  eexists.
  unfold monkfs.Getattr, monkfs.bind, monkfs.cache_Get.
  rewrite Hmiss. unfold monkfs.remote_Stat. rewrite Hc.
  cbn [monkfs.Stat monkclient.as_apiClient]. rewrite HS.
  reflexivity.
Qed.

End Client_properties.

Lemma Getattr_errno_by_http_status_witness :
  (∃ w1, monkfs.Getattr rfc3339.seconds (served.node_f 404 served.json_error)
                        scenario.attr0 scenario.world0
         = Go.Ret ((scenario.attr0, ENOENT), w1))
  ∧ (∃ w1, monkfs.Getattr rfc3339.seconds (served.node_f 404 served.not_json)
                          scenario.attr0 scenario.world0
           = Go.Ret ((scenario.attr0, EIO), w1)).
Proof.
  split.
  - destruct (Getattr_errno_by_http_status served.marshal served.any_url
                served.no_escape (served.answer 404) served.json_error
                served.envelope served.no_list served.stat_payload
                served.no_content rfc3339.seconds served.local
                (served.node_f 404 served.json_error) scenario.attr0
                scenario.world0 []
                {| http.Method := "POST";
                   http.URL :=
                     "http://localhost:8000/api/file/stat?pick=file_metadata";
                   http.Header :=
                     [("Content-Type", "application/json");
                      ("Authorization", "Bearer secret")];
                   http.Body := [] |}
                1 404 [])
      as (w1 & Hrun & _); try reflexivity; [discriminate|].
    exists w1. exact Hrun.
  - destruct (Getattr_errno_by_http_status served.marshal served.any_url
                served.no_escape (served.answer 404) served.not_json
                served.envelope served.no_list served.stat_payload
                served.no_content rfc3339.seconds served.local
                (served.node_f 404 served.not_json) scenario.attr0
                scenario.world0 []
                {| http.Method := "POST";
                   http.URL :=
                     "http://localhost:8000/api/file/stat?pick=file_metadata";
                   http.Header :=
                     [("Content-Type", "application/json");
                      ("Authorization", "Bearer secret")];
                   http.Body := [] |}
                1 404 [])
      as (w1 & Hrun & _); try reflexivity; [discriminate|].
    exists w1. exact Hrun.
Defined.

Lemma Getattr_ignores_success_flags_witness :
  ∃ w1, monkfs.Getattr rfc3339.seconds (served.node_f 200 served.not_json)
                       scenario.attr0 scenario.world0
        = Go.Ret ((monkfs.fillAttr rfc3339.seconds scenario.attr0
                                   served.unsuccessful_stat, OK), w1).
Proof.
  apply (Getattr_ignores_success_flags served.marshal served.any_url
           served.no_escape (served.answer 200) served.not_json
           served.envelope served.no_list served.stat_payload
           served.no_content rfc3339.seconds served.local
           (served.node_f 200 served.not_json) scenario.attr0
           scenario.world0 []
           {| http.Method := "POST";
              http.URL :=
                "http://localhost:8000/api/file/stat?pick=file_metadata";
              http.Header :=
                [("Content-Type", "application/json");
                 ("Authorization", "Bearer secret")];
              http.Body := [] |}
           1 []
           {| monkclient.APIWrapper_Success := false;
              monkclient.Data := [] |}
           served.unsuccessful_stat); reflexivity.
Defined.

(** ** From Open to Read *)

(** X24: when the existence check of Open succeeds, the handle is bound to
    the node and its path and the keep-cache flag is returned; a Read
    through that handle then either panics or returns having asked the
    remote, after the Stat of Open, for the content of that very path with
    the requested offset and the buffer length. *)
Theorem Open_then_Read {Other : Type}
        (json_Marshal : Other → list byte * option error)
        (n : monkfs.MonkFS (Other:=Other)) (flags : Z) (w : monkfs.World)
        (t : Z) (resp : StatResponse) (len_dest off : Z) :
  monkfs.Stat (monkfs.apiClient n) (monkfs.clock w) (monkfs.getPath n) ""
  = (t, Ok resp) →
  ∃ fh w1,
    monkfs.Open n flags w = Go.Ret ((Some fh, fuse.FOPEN_KEEP_CACHE, OK), w1)
    ∧ monkfs.node fh = n ∧ monkfs.path fh = monkfs.getPath n
    ∧ ((∃ msg, monkfs.Read json_Marshal fh len_dest off w1 = Go.Panic msg)
       ∨ ∃ r w2,
           monkfs.Read json_Marshal fh len_dest off w1 = Go.Ret (r, w2)
           ∧ monkfs.calls w2
             = monkfs.calls w
               ++ [monkfs.CallStat (monkfs.getPath n) "";
                   monkfs.CallRetrieve (monkfs.getPath n)
                     {| StartOffset := off; MaxBytes := len_dest |}
                     "content"]).
Proof.
  intros Hstat. do 2 eexists. split.
  { unfold monkfs.Open, monkfs.bind.
    rewrite (remote_Stat_eq _ _ _ _ _ _ Hstat). reflexivity. }
  split; [reflexivity|]. split; [reflexivity|].
  unfold monkfs.Read, monkfs.bind, monkfs.remote_Retrieve.
  cbn [monkfs.node monkfs.path monkfs.clock monkfs.calls monkfs.the_cache].
  destruct (monkfs.Retrieve _ _ _ _ _) as [t2 [rresp|err]].
  2: { right. do 2 eexists. split; [reflexivity|].
       cbn [monkfs.calls]. by rewrite <- app_assoc. }
  unfold monkfs.lift.
  destruct (monkfs.contentToBytes json_Marshal (Content rresp))
    as [data|msg]; [|left; by eexists].
  destruct (Go.blen data <=? off).
  { right. do 2 eexists. split; [reflexivity|].
    cbn [monkfs.calls]. by rewrite <- app_assoc. }
  destruct (Go.bslice_from data off) as [tail|msg]; [|left; by eexists].
  right. do 2 eexists. split; [reflexivity|].
  cbn [monkfs.calls]. by rewrite <- app_assoc.
Qed.

Lemma Open_then_Read_witness :
  ∃ fh w1,
    monkfs.Open (cases.file_f cases.up) 0 scenario.world0
    = Go.Ret ((Some fh, fuse.FOPEN_KEEP_CACHE, OK), w1)
    ∧ monkfs.path fh = "/f".
Proof.
  destruct (Open_then_Read scenario.marshal (cases.file_f cases.up) 0
              scenario.world0 1 scenario.report_stat 4096 0)
    as (fh & w1 & Hrun & _ & Hpath & _).
  - reflexivity.
  - exists fh, w1. split; [exact Hrun | exact Hpath].
Defined.
